(** * OptionsAnalyzer: Black-Scholes prices, Greeks and strategy aggregation

    A shallow embedding of [FX.py] and [Equity.py].

    Numbers.  The fields of a leg are Python numbers, modelled as real
    numbers ([R]); rounding and overflow of binary floating point are left
    out.  Everything that went through numpy or scipy ([np.log], [np.sqrt],
    [np.exp], [stats.norm.cdf], [stats.norm.pdf]) is a [numpy.float64]; such
    a value is modelled as an extended real ([float64] below: a real, plus or
    minus infinity, or not-a-number), because numpy scalars follow IEEE-754
    on a zero divisor or an argument outside the domain (a RuntimeWarning, no
    exception), whereas the division of two Python numbers raises
    [ZeroDivisionError].  Zero is unsigned in the model.

    Effects.  A method returns a value or raises: the [outcome] monad. *)

From Stdlib Require Import Reals Lra ZArith String DecimalString List.
Import ListNotations.

Local Open Scope R_scope.

(** ** Python exceptions and outcomes *)

Inductive exn : Type :=
| ValueError (msg : string)
| ZeroDivisionError
| TypeError
| UnboundLocalError (name : string).

Inductive outcome (A : Type) : Type :=
| Returns (a : A)
| Raises (e : exn).

Arguments Returns {A} a.
Arguments Raises {A} e.

Definition bind {A B : Type} (m : outcome A) (k : A -> outcome B) : outcome B :=
  match m with
  | Returns a => k a
  | Raises e => Raises e
  end.

Notation "x <- m ;; k" := (bind m (fun x => k))
  (at level 61, m at next level, right associativity).
Notation "' p <- m ;; k" := (bind m (fun x => let p := x in k))
  (at level 61, p pattern, m at next level, right associativity).

(** ** numpy.float64 as an extended real *)

Inductive float64 : Type :=
| Fin (x : R)
| PInf
| NInf
| NaN.

Coercion Fin : R >-> float64.

Definition is_finite (a : float64) : bool :=
  match a with Fin _ => true | _ => false end.

(** The infinity whose sign is the sign of [x]; not-a-number at zero. *)
Definition signed_inf (x : R) : float64 :=
  if Rlt_dec 0 x then PInf else if Rlt_dec x 0 then NInf else NaN.

Definition fneg (a : float64) : float64 :=
  match a with
  | Fin x => Fin (- x)
  | PInf => NInf
  | NInf => PInf
  | NaN => NaN
  end.

Definition fadd (a b : float64) : float64 :=
  match a, b with
  | NaN, _ | _, NaN => NaN
  | Fin x, Fin y => Fin (x + y)
  | PInf, NInf | NInf, PInf => NaN
  | PInf, _ | _, PInf => PInf
  | NInf, _ | _, NInf => NInf
  end.

Definition fsub (a b : float64) : float64 := fadd a (fneg b).

Definition fmul (a b : float64) : float64 :=
  match a, b with
  | NaN, _ | _, NaN => NaN
  | Fin x, Fin y => Fin (x * y)
  | Fin x, PInf | PInf, Fin x => signed_inf x
  | Fin x, NInf | NInf, Fin x => signed_inf (- x)
  | PInf, PInf | NInf, NInf => PInf
  | PInf, NInf | NInf, PInf => NInf
  end.

Definition fdiv (a b : float64) : float64 :=
  match a, b with
  | NaN, _ | _, NaN => NaN
  | Fin x, Fin y => if Req_dec_T y 0 then signed_inf x else Fin (x / y)
  | Fin _, (PInf | NInf) => Fin 0
  | PInf, Fin y => if Rlt_dec y 0 then NInf else PInf
  | NInf, Fin y => if Rlt_dec y 0 then PInf else NInf
  | (PInf | NInf), (PInf | NInf) => NaN
  end.

Declare Scope f64_scope.
Delimit Scope f64_scope with f64.
Bind Scope f64_scope with float64.
Infix "+" := fadd : f64_scope.
Infix "-" := fsub : f64_scope.
Infix "*" := fmul : f64_scope.
Infix "/" := fdiv : f64_scope.
Notation "- a" := (fneg a) : f64_scope.

(** [np.log], [np.sqrt] and [np.exp] at a Python number. *)
Definition np_log (x : R) : float64 :=
  if Rlt_dec 0 x then Fin (ln x) else if Rlt_dec x 0 then NaN else NInf.

Definition np_sqrt (x : R) : float64 :=
  if Rlt_dec x 0 then NaN else Fin (sqrt x).

Definition np_exp (x : R) : float64 := Fin (exp x).

(** ** The standard normal distribution ([scipy.stats.norm])

    scipy is outside the repository; [pdf] is the density
    [exp(-x**2/2)/sqrt(2*pi)] and [cdf] the distribution function, one half
    plus the integral of the density from 0. *)

Definition norm_pdf (x : R) : R := exp (- (x * x) / 2) / sqrt (2 * PI).

Lemma norm_pdf_continuity : continuity norm_pdf.
Proof.
  apply derivable_continuous. unfold norm_pdf. reg.
Qed.

Lemma norm_pdf_integrable (a b : R) : Riemann_integrable norm_pdf a b.
Proof.
  destruct (Rle_dec a b) as [Hab | Hab].
  - apply continuity_implies_RiemannInt; [exact Hab | ].
    intros x _. apply norm_pdf_continuity.
  - apply RiemannInt_P1, continuity_implies_RiemannInt; [lra | ].
    intros x _. apply norm_pdf_continuity.
Qed.

Definition norm_cdf (x : R) : R :=
  1 / 2 + RiemannInt (norm_pdf_integrable 0 x).

(** [stats.norm.pdf] and [stats.norm.cdf] at a float64. *)
Definition stats_norm_pdf (a : float64) : float64 :=
  match a with
  | Fin x => Fin (norm_pdf x)
  | PInf | NInf => Fin 0
  | NaN => NaN
  end.

Definition stats_norm_cdf (a : float64) : float64 :=
  match a with
  | Fin x => Fin (norm_cdf x)
  | PInf => Fin 1
  | NInf => Fin 0
  | NaN => NaN
  end.

(** ** Python values and the operators the program applies to them

    A method's result is a Python number (the [0] that [sum] starts from),
    a numpy.float64, or [None].  [stats.norm.cdf], [stats.norm.pdf],
    [np.log], [np.sqrt] and [np.exp] return a numpy.float64 at a scalar, and
    an operation between a numpy.float64 and a Python number is numpy's and
    gives a numpy.float64 again: every price and Greek is one. *)

Inductive value : Type :=
| PyNum (x : R)
| NpFloat (a : float64)
| PyNone.

(** [x / y] on two Python numbers. *)
Definition py_truediv (x y : R) : outcome R :=
  if Req_dec_T y 0 then Raises ZeroDivisionError else Returns (x / y).

(** [a + b]: numpy's addition as soon as one operand is a numpy.float64. *)
Definition py_add (a b : value) : outcome value :=
  match a, b with
  | PyNum x, PyNum y => Returns (PyNum (x + y))
  | PyNum x, NpFloat b => Returns (NpFloat (Fin x + b))
  | NpFloat a, PyNum y => Returns (NpFloat (a + Fin y))
  | NpFloat a, NpFloat b => Returns (NpFloat (a + b))
  | _, _ => Raises TypeError
  end.

(** [a / b]: between two Python numbers a zero divisor raises
    ZeroDivisionError; as soon as one operand is a numpy.float64 the division
    is numpy's, which warns and returns an infinity or not-a-number. *)
Definition py_div (a b : value) : outcome value :=
  match a, b with
  | PyNum x, PyNum y => r <- py_truediv x y ;; Returns (PyNum r)
  | PyNum x, NpFloat b => Returns (NpFloat (Fin x / b))
  | NpFloat a, PyNum y => Returns (NpFloat (a / Fin y))
  | NpFloat a, NpFloat b => Returns (NpFloat (a / b))
  | _, _ => Raises TypeError
  end.

(** The builtin [sum] over a generator: the items are produced one at a time,
    each added to the running total before the next is computed. *)
Fixpoint sum_from (total : value) (items : list (outcome value)) : outcome value :=
  match items with
  | [] => Returns total
  | item :: rest =>
      v <- item ;;
      total' <- py_add total v ;;
      sum_from total' rest
  end.

Definition py_sum (items : list (outcome value)) : outcome value :=
  sum_from (PyNum 0) items.

(** [np.mean] and [np.std] of a list of Python numbers: the population mean
    and the population standard deviation (ddof = 0); not-a-number on the
    empty list. *)
Definition total (l : list R) : R := fold_right Rplus 0 l.

Definition mean (l : list R) : R := total l / INR (length l).

Definition np_mean (l : list R) : float64 :=
  match l with
  | [] => NaN
  | _ => Fin (mean l)
  end.

Definition np_std (l : list R) : float64 :=
  match l with
  | [] => NaN
  | _ => Fin (sqrt (mean (map (fun x => Rabs (x - mean l) ^ 2) l)))
  end.

(** A dict as the list of its items in insertion order, with [values()] and
    [get]; the keys of a dict are distinct, which nothing below relies on. *)
Section Dict.

Variable K : Type.
Variable K_eq_dec : forall a b : K, {a = b} + {a <> b}.

Definition dict : Type := list (K * R).

Definition dict_values (d : dict) : list R := map snd d.

Fixpoint dict_get (d : dict) (k : K) : option R :=
  match d with
  | [] => None
  | (k', v) :: rest => if K_eq_dec k' k then Some v else dict_get rest k
  end.

(** [VolatilityAnalyzer.z_score], the same text in both files; [str_of_key]
    is the formatting of the strike in the message. *)
Variable str_of_key : K -> string.

Definition z_score (implied_vols : dict) (strike : K) : outcome value :=
  let vol_values := dict_values implied_vols in
  let mean_vol := np_mean vol_values in
  let std_vol := np_std vol_values in
  match dict_get implied_vols strike with
  | None =>
      Raises (ValueError ("No implied volatility found for strike " ++ str_of_key strike))
  | Some strike_vol =>
      Returns (NpFloat ((Fin strike_vol - mean_vol) / std_vol))
  end.

End Dict.

Arguments dict_values {K} d.
Arguments dict_get {K} K_eq_dec d k.
Arguments z_score {K} K_eq_dec str_of_key implied_vols strike.

(** The formatting of an integer strike in a message. *)
Definition str_of_strike (k : Z) : string := NilZero.string_of_int (Z.to_int k).

Definition bad_type : exn := ValueError "Option type must be 'call' or 'put'.".

(** ** FX.py *)

Module FX.

Record Option : Type := mkOption {
  strike : R;
  expiry : R;
  option_type : string;
  implied_vol : R;
  spot : R;
  interest_rate : R
}.

Definition d1_d2 (self : Option) : outcome (float64 * float64) :=
  m <- py_truediv (spot self) (strike self) ;;
  let d1 := ((np_log m +
              Fin ((interest_rate self + 0.5 * implied_vol self ^ 2) * expiry self))
             / (implied_vol self * np_sqrt (expiry self)))%f64 in
  let d2 := (d1 - implied_vol self * np_sqrt (expiry self))%f64 in
  Returns (d1, d2).

Definition black_scholes (self : Option) : outcome value :=
  d <- d1_d2 self ;;
  let d1 := fst d in
  let d2 := snd d in
  if (option_type self =? "call")%string then
    Returns (NpFloat (spot self * stats_norm_cdf d1 -
                      strike self * np_exp (- interest_rate self * expiry self)
                      * stats_norm_cdf d2))
  else if (option_type self =? "put")%string then
    Returns (NpFloat (strike self * np_exp (- interest_rate self * expiry self)
                      * stats_norm_cdf (- d2) -
                      spot self * stats_norm_cdf (- d1)))
  else Raises bad_type.

Definition delta (self : Option) : outcome value :=
  d <- d1_d2 self ;;
  let d1 := fst d in
  if (option_type self =? "call")%string then
    Returns (NpFloat (stats_norm_cdf d1))
  else if (option_type self =? "put")%string then
    Returns (NpFloat (stats_norm_cdf d1 - Fin 1))
  else Returns PyNone.

Definition gamma (self : Option) : outcome value :=
  d <- d1_d2 self ;;
  let d1 := fst d in
  Returns (NpFloat (stats_norm_pdf d1 /
                    (Fin (spot self * implied_vol self) * np_sqrt (expiry self)))).

Definition vega (self : Option) : outcome value :=
  d <- d1_d2 self ;;
  let d1 := fst d in
  let vega := (spot self * stats_norm_pdf d1 * np_sqrt (expiry self))%f64 in
  Returns (NpFloat (vega / Fin 100)).

Definition theta (self : Option) : outcome value :=
  d <- d1_d2 self ;;
  let d1 := fst d in
  let d2 := snd d in
  theta <-
    (if (option_type self =? "call")%string then
       Returns (- (spot self * stats_norm_pdf d1 * implied_vol self)
                / (Fin 2 * np_sqrt (expiry self)) -
                Fin (interest_rate self * strike self)
                * np_exp (- interest_rate self * expiry self) * stats_norm_cdf d2)%f64
     else if (option_type self =? "put")%string then
       Returns (- (spot self * stats_norm_pdf d1 * implied_vol self)
                / (Fin 2 * np_sqrt (expiry self)) +
                Fin (interest_rate self * strike self)
                * np_exp (- interest_rate self * expiry self) * stats_norm_cdf (- d2))%f64
     else Raises (UnboundLocalError "theta")) ;;
  Returns (NpFloat (theta / Fin 365)).

Definition rho (self : Option) : outcome value :=
  d <- d1_d2 self ;;
  let d2 := snd d in
  rho <-
    (if (option_type self =? "call")%string then
       Returns (Fin (strike self * expiry self)
                * np_exp (- interest_rate self * expiry self) * stats_norm_cdf d2)%f64
     else if (option_type self =? "put")%string then
       Returns (Fin (- strike self * expiry self)
                * np_exp (- interest_rate self * expiry self) * stats_norm_cdf (- d2))%f64
     else Raises (UnboundLocalError "rho")) ;;
  Returns (NpFloat (rho / Fin 100)).

Record Strategy : Type := mkStrategy { options : list Option }.

Definition strategy_price (self : Strategy) : outcome value :=
  py_sum (map black_scholes (options self)).

Definition strategy_delta (self : Strategy) : outcome value :=
  py_sum (map delta (options self)).

Definition RiskReversal (put call : Option) : Strategy :=
  mkStrategy [put; call].

Definition Straddle (put call : Option) : Strategy :=
  mkStrategy [put; call].

Definition Butterfly (lower_strike middle_strike upper_strike : Option) : Strategy :=
  mkStrategy [lower_strike; middle_strike; middle_strike; upper_strike].

Definition break_even (strategy : Strategy) (underlying_move : R) : outcome value :=
  total_price <- strategy_price strategy ;;
  py_div total_price (PyNum underlying_move).

(** The objects that [main] builds. *)
Definition main_implied_vols : list (Z * R) :=
  [(140%Z, 0.15); (145%Z, 0.12); (150%Z, 0.10)].

Definition main_put_option : Option := mkOption 143 0.5 "put" 0.15 145 0.01.

Definition main_call_option : Option := mkOption 147 0.5 "call" 0.10 145 0.01.

Definition main_risk_reversal : Strategy :=
  RiskReversal main_put_option main_call_option.

(** The constraints of the data model on the fields of a leg (the
    constructor checks nothing). *)
Definition well_formed (self : Option) : Prop :=
  0 < strike self /\ 0 < expiry self /\ 0 < implied_vol self /\ 0 < spot self.

End FX.

(** ** Equity.py *)

Module Equity.

Record EquityOption : Type := mkEquityOption {
  strike : R;
  expiry : R;
  option_type : string;
  implied_vol : R;
  spot : R;
  interest_rate : R;
  dividend_yield : R
}.

Definition d1_d2 (self : EquityOption) : outcome (float64 * float64) :=
  m <- py_truediv (spot self) (strike self) ;;
  let d1 := ((np_log m +
              Fin ((interest_rate self - dividend_yield self
                    + 0.5 * implied_vol self ^ 2) * expiry self))
             / (implied_vol self * np_sqrt (expiry self)))%f64 in
  let d2 := (d1 - implied_vol self * np_sqrt (expiry self))%f64 in
  Returns (d1, d2).

Definition black_scholes_merton (self : EquityOption) : outcome value :=
  d <- d1_d2 self ;;
  let d1 := fst d in
  let d2 := snd d in
  if (option_type self =? "call")%string then
    Returns (NpFloat (spot self * np_exp (- dividend_yield self * expiry self)
                      * stats_norm_cdf d1 -
                      strike self * np_exp (- interest_rate self * expiry self)
                      * stats_norm_cdf d2))
  else if (option_type self =? "put")%string then
    Returns (NpFloat (strike self * np_exp (- interest_rate self * expiry self)
                      * stats_norm_cdf (- d2) -
                      spot self * np_exp (- dividend_yield self * expiry self)
                      * stats_norm_cdf (- d1)))
  else Raises bad_type.

Definition delta (self : EquityOption) : outcome value :=
  d <- d1_d2 self ;;
  let d1 := fst d in
  if (option_type self =? "call")%string then
    Returns (NpFloat (np_exp (- dividend_yield self * expiry self) * stats_norm_cdf d1))
  else if (option_type self =? "put")%string then
    Returns (NpFloat (np_exp (- dividend_yield self * expiry self)
                      * (stats_norm_cdf d1 - Fin 1)))
  else Returns PyNone.

Definition gamma (self : EquityOption) : outcome value :=
  d <- d1_d2 self ;;
  let d1 := fst d in
  Returns (NpFloat (stats_norm_pdf d1 /
                    (Fin (spot self * implied_vol self) * np_sqrt (expiry self)))).

Definition vega (self : EquityOption) : outcome value :=
  d <- d1_d2 self ;;
  let d1 := fst d in
  let vega := (spot self * np_exp (- dividend_yield self * expiry self)
               * stats_norm_pdf d1 * np_sqrt (expiry self))%f64 in
  Returns (NpFloat (vega / Fin 100)).

Definition theta (self : EquityOption) : outcome value :=
  d <- d1_d2 self ;;
  let d1 := fst d in
  let d2 := snd d in
  theta <-
    (if (option_type self =? "call")%string then
       Returns (- (spot self * stats_norm_pdf d1 * implied_vol self
                   * np_exp (- dividend_yield self * expiry self))
                / (Fin 2 * np_sqrt (expiry self))
                - Fin (interest_rate self * strike self)
                  * np_exp (- interest_rate self * expiry self) * stats_norm_cdf d2
                + Fin (dividend_yield self * spot self)
                  * np_exp (- dividend_yield self * expiry self) * stats_norm_cdf d1)%f64
     else if (option_type self =? "put")%string then
       Returns (- (spot self * stats_norm_pdf d1 * implied_vol self
                   * np_exp (- dividend_yield self * expiry self))
                / (Fin 2 * np_sqrt (expiry self))
                + Fin (interest_rate self * strike self)
                  * np_exp (- interest_rate self * expiry self) * stats_norm_cdf (- d2)
                - Fin (dividend_yield self * spot self)
                  * np_exp (- dividend_yield self * expiry self)
                  * stats_norm_cdf (- d1))%f64
     else Raises (UnboundLocalError "theta")) ;;
  Returns (NpFloat (theta / Fin 365)).

Definition rho (self : EquityOption) : outcome value :=
  d <- d1_d2 self ;;
  let d2 := snd d in
  rho <-
    (if (option_type self =? "call")%string then
       Returns (Fin (strike self * expiry self)
                * np_exp (- interest_rate self * expiry self) * stats_norm_cdf d2)%f64
     else if (option_type self =? "put")%string then
       Returns (Fin (- strike self * expiry self)
                * np_exp (- interest_rate self * expiry self) * stats_norm_cdf (- d2))%f64
     else Raises (UnboundLocalError "rho")) ;;
  Returns (NpFloat (rho / Fin 100)).

(** The volatilities that [main] builds. *)
Definition main_implied_vols : list (Z * R) :=
  [(95%Z, 0.2); (100%Z, 0.18); (105%Z, 0.16)].

(** The constraints of the data model on the fields of a leg. *)
Definition well_formed (self : EquityOption) : Prop :=
  0 < strike self /\ 0 < expiry self /\ 0 < implied_vol self /\ 0 < spot self.

(** The equity leg with the fields of an FX leg and no dividend. *)
Definition of_fx (o : FX.Option) : EquityOption :=
  mkEquityOption (FX.strike o) (FX.expiry o) (FX.option_type o)
                 (FX.implied_vol o) (FX.spot o) (FX.interest_rate o) 0.

End Equity.

(** ** The formulas of the specification, over the reals

    Written after the specification's tables (sections 4.1, 4.2 and 4.4),
    to be compared with what the code computes. *)

Module Spec.

Section Formulas.

Variables S K r q sigma T : R.

Definition d1 : R :=
  (ln (S / K) + (r - q + 0.5 * sigma ^ 2) * T) / (sigma * sqrt T).

Definition d2 : R := d1 - sigma * sqrt T.

Definition equity_call : R :=
  S * exp (- (q * T)) * norm_cdf d1 - K * exp (- (r * T)) * norm_cdf d2.

Definition equity_put : R :=
  K * exp (- (r * T)) * norm_cdf (- d2) - S * exp (- (q * T)) * norm_cdf (- d1).

Definition fx_d1 : R :=
  (ln (S / K) + (r + 0.5 * sigma ^ 2) * T) / (sigma * sqrt T).

Definition fx_d2 : R := fx_d1 - sigma * sqrt T.

Definition fx_call : R :=
  S * norm_cdf fx_d1 - K * exp (- (r * T)) * norm_cdf fx_d2.

Definition fx_put : R :=
  K * exp (- (r * T)) * norm_cdf (- fx_d2) - S * norm_cdf (- fx_d1).

End Formulas.

(** Population mean and standard deviation: divide by N. *)
Definition population_mean (l : list R) : R :=
  fold_right Rplus 0 l / INR (length l).

Definition population_std (l : list R) : R :=
  sqrt (fold_right Rplus 0 (map (fun x => (x - population_mean l) ^ 2) l)
        / INR (length l)).

End Spec.

(** ** Auxiliary definitions of the statements *)

(** What each model's price is on a well-formed leg, by option type. *)
Definition equity_price (o : Equity.EquityOption) : R :=
  if (Equity.option_type o =? "call")%string then
    Spec.equity_call (Equity.spot o) (Equity.strike o) (Equity.interest_rate o)
      (Equity.dividend_yield o) (Equity.implied_vol o) (Equity.expiry o)
  else
    Spec.equity_put (Equity.spot o) (Equity.strike o) (Equity.interest_rate o)
      (Equity.dividend_yield o) (Equity.implied_vol o) (Equity.expiry o).

Definition fx_price (o : FX.Option) : R :=
  if (FX.option_type o =? "call")%string then
    Spec.fx_call (FX.spot o) (FX.strike o) (FX.interest_rate o)
      (FX.implied_vol o) (FX.expiry o)
  else
    Spec.fx_put (FX.spot o) (FX.strike o) (FX.interest_rate o)
      (FX.implied_vol o) (FX.expiry o).

Definition is_call_or_put (ty : string) : Prop := ty = "call"%string \/ ty = "put"%string.

(** What [sum] can add to: a number, not [None]. *)
Definition is_number (v : value) : Prop :=
  match v with PyNone => False | _ => True end.

(** * Properties *)

(** ** Arithmetic of float64 *)

Lemma py_truediv_nonzero (x y : R) : y <> 0 -> py_truediv x y = Returns (x / y).
Proof.
  intros Hy. unfold py_truediv. destruct (Req_dec_T y 0); [contradiction | reflexivity].
Qed.

Lemma py_truediv_zero (x : R) : py_truediv x 0 = Raises ZeroDivisionError.
Proof.
  unfold py_truediv. destruct (Req_dec_T 0 0) as [_ | H]; [reflexivity | now elim H].
Qed.

Lemma np_log_pos (x : R) : 0 < x -> np_log x = Fin (ln x).
Proof.
  intros Hx. unfold np_log. destruct (Rlt_dec 0 x); [reflexivity | contradiction].
Qed.

Lemma np_sqrt_nonneg (x : R) : 0 <= x -> np_sqrt x = Fin (sqrt x).
Proof.
  intros Hx. unfold np_sqrt. destruct (Rlt_dec x 0); [lra | reflexivity].
Qed.

Lemma fdiv_fin (x y : R) : y <> 0 -> (Fin x / Fin y)%f64 = Fin (x / y).
Proof.
  intros Hy. simpl. destruct (Req_dec_T y 0); [contradiction | reflexivity].
Qed.

Lemma signed_inf_not_finite (x : R) : is_finite (signed_inf x) = false.
Proof.
  unfold signed_inf. destruct (Rlt_dec 0 x); [reflexivity | ].
  destruct (Rlt_dec x 0); reflexivity.
Qed.

Lemma fdiv_zero_not_finite (a : float64) : is_finite (a / Fin 0)%f64 = false.
Proof.
  destruct a as [x | | | ]; simpl.
  - destruct (Req_dec_T 0 0) as [_ | H]; [apply signed_inf_not_finite | now elim H].
  - destruct (Rlt_dec 0 0); reflexivity.
  - destruct (Rlt_dec 0 0); reflexivity.
  - reflexivity.
Qed.

Lemma signed_inf_1 : signed_inf 1 = PInf.
Proof. unfold signed_inf. destruct (Rlt_dec 0 1); [reflexivity | lra]. Qed.

Lemma signed_inf_m1 : signed_inf (- 1) = NInf.
Proof.
  unfold signed_inf. destruct (Rlt_dec 0 (- 1)); [lra | ].
  destruct (Rlt_dec (- 1) 0); [reflexivity | lra].
Qed.

Lemma fmul_1_r (a : float64) : (a * Fin 1)%f64 = a.
Proof.
  destruct a as [x | | | ]; simpl.
  - now rewrite Rmult_1_r.
  - apply signed_inf_1.
  - apply signed_inf_m1.
  - reflexivity.
Qed.

Lemma fmul_1_l (a : float64) : (Fin 1 * a)%f64 = a.
Proof.
  destruct a as [x | | | ]; simpl.
  - now rewrite Rmult_1_l.
  - apply signed_inf_1.
  - apply signed_inf_m1.
  - reflexivity.
Qed.

Lemma fadd_0_r (a : float64) : (a + Fin 0)%f64 = a.
Proof.
  destruct a as [x | | | ]; simpl; [now rewrite Rplus_0_r | reflexivity ..].
Qed.

Lemma fsub_0_r (a : float64) : (a - Fin 0)%f64 = a.
Proof.
  destruct a as [x | | | ]; unfold fsub; simpl; [ | reflexivity ..].
  f_equal. ring.
Qed.

Lemma np_exp_0 (T : R) : np_exp (- 0 * T) = Fin 1.
Proof.
  unfold np_exp. replace (- 0 * T) with 0 by ring. now rewrite exp_0.
Qed.

(** ** The distribution function *)


(** *** The integral of an even function from 0 *)

Section EvenIntegral.

Variable f : R -> R.
Hypothesis f_cont : continuity f.
Hypothesis f_even : forall t, f (- t) = f t.

Variable M : R.
Hypothesis M_nonneg : 0 <= M.

Let bounds : - M <= M.
Proof. lra. Qed.

Let cont_on : forall t, - M <= t <= M -> continuity_pt f t :=
  fun t _ => f_cont t.

(** The integral of [f] from [-M]. *)
Let G : R -> R := primitive bounds (FTC_P1 bounds cont_on).

Lemma integral_from_0 (t : R) (p : Riemann_integrable f 0 t) :
  - M <= t <= M -> RiemannInt p = G t - G 0.
Proof.
  intros Ht. unfold G, primitive.
  destruct (Rle_dec (- M) t) as [L1 | L1]; [ | lra].
  destruct (Rle_dec t M) as [L2 | L2]; [ | lra].
  destruct (Rle_dec (- M) 0) as [L3 | L3]; [ | lra].
  destruct (Rle_dec 0 M) as [L4 | L4]; [ | lra].
  rewrite <- (RiemannInt_P26 (FTC_P1 bounds cont_on L3 L4) p
                (FTC_P1 bounds cont_on L1 L2)).
  ring.
Qed.

Lemma reflected_antiderivative :
  antiderivative f (fun t => - G (- t)) (- M) M.
Proof.
  split; [ | exact bounds].
  intros t Ht.
  assert (Hm : - M <= - t <= M) by lra.
  pose proof (RiemannInt_P28 bounds cont_on Hm) as HG. fold G in HG.
  pose proof (derivable_pt_lim_opp id t 1 (derivable_pt_lim_id t)) as Hopp.
  pose proof (derivable_pt_lim_comp (- id)%F G t (- 1) (f (- t)) Hopp HG) as Hc.
  pose proof (derivable_pt_lim_opp _ t _ Hc) as Hr.
  assert (Hlim : derivable_pt_lim (fun t => - G (- t)) t (f t)).
  { replace (f t) with (- (f (- t) * - 1)) by (rewrite f_even; ring).
    exact Hr. }
  exists (exist _ (f t) Hlim). reflexivity.
Qed.

Lemma primitive_reflect (t : R) : - M <= t <= M -> G t + G (- t) = 2 * G 0.
Proof.
  intros Ht.
  destruct (antiderivative_Ucte f G (fun t => - G (- t)) (- M) M
              (RiemannInt_P29 bounds cont_on) reflected_antiderivative)
    as [c Hc].
  assert (H0 : G 0 = - G (- 0) + c) by (apply Hc; lra).
  rewrite Ropp_0 in H0.
  specialize (Hc t Ht). lra.
Qed.

Lemma even_integral_within (x : R)
      (p1 : Riemann_integrable f 0 x) (p2 : Riemann_integrable f 0 (- x)) :
  - M <= x <= M -> RiemannInt p2 = - RiemannInt p1.
Proof.
  intros Hx.
  rewrite (integral_from_0 x p1 Hx).
  rewrite (integral_from_0 (- x) p2) by lra.
  pose proof (primitive_reflect x Hx). lra.
Qed.

End EvenIntegral.

Lemma even_integral (f : R -> R) (x : R)
    (p1 : Riemann_integrable f 0 x) (p2 : Riemann_integrable f 0 (- x)) :
continuity f -> (forall t, f (- t) = f t) -> RiemannInt p2 = - RiemannInt p1.
Proof.
intros Hc He.
apply (even_integral_within f Hc He (Rabs x) (Rabs_pos x)).
unfold Rabs. destruct (Rcase_abs x); lra.
Qed.

Lemma norm_pdf_even (t : R) : norm_pdf (- t) = norm_pdf t.
Proof. unfold norm_pdf. f_equal. f_equal. lra. Qed.

Lemma norm_pdf_pos (t : R) : 0 < norm_pdf t.
Proof.
unfold norm_pdf. apply Rdiv_lt_0_compat; [apply exp_pos | ].
apply sqrt_lt_R0. pose proof PI_RGT_0. lra.
Qed.

(** The reflection formula of the distribution function. *)
Lemma norm_cdf_reflect (x : R) : norm_cdf (- x) = 1 - norm_cdf x.
Proof.
unfold norm_cdf.
rewrite (even_integral norm_pdf x (norm_pdf_integrable 0 x)
           (norm_pdf_integrable 0 (- x)) norm_pdf_continuity norm_pdf_even).
lra.
Qed.

(** ** d1 and d2 on a well-formed leg *)

Lemma vol_sqrt_expiry_pos (sigma T : R) : 0 < sigma -> 0 < T -> 0 < sigma * sqrt T.
Proof.
  intros Hs HT. apply Rmult_lt_0_compat; [exact Hs | now apply sqrt_lt_R0].
Qed.

Lemma fx_d1_d2_well_formed (o : FX.Option) :
  FX.well_formed o ->
  FX.d1_d2 o =
  Returns
    (Fin (Spec.fx_d1 (FX.spot o) (FX.strike o) (FX.interest_rate o)
            (FX.implied_vol o) (FX.expiry o)),
     Fin (Spec.fx_d2 (FX.spot o) (FX.strike o) (FX.interest_rate o)
            (FX.implied_vol o) (FX.expiry o))).
Proof.
  intros (HK & HT & Hs & HS). unfold FX.d1_d2.
  rewrite py_truediv_nonzero by lra. cbn [bind].
  rewrite np_log_pos by (now apply Rdiv_lt_0_compat).
  rewrite np_sqrt_nonneg by lra.
  pose proof (vol_sqrt_expiry_pos _ _ Hs HT) as Hden.
  cbn [fadd fmul fsub fneg].
  rewrite fdiv_fin by lra.
  reflexivity.
Qed.

Lemma equity_d1_d2_well_formed (o : Equity.EquityOption) :
  Equity.well_formed o ->
  Equity.d1_d2 o =
  Returns
    (Fin (Spec.d1 (Equity.spot o) (Equity.strike o) (Equity.interest_rate o)
            (Equity.dividend_yield o) (Equity.implied_vol o) (Equity.expiry o)),
     Fin (Spec.d2 (Equity.spot o) (Equity.strike o) (Equity.interest_rate o)
            (Equity.dividend_yield o) (Equity.implied_vol o) (Equity.expiry o))).
Proof.
  intros (HK & HT & Hs & HS). unfold Equity.d1_d2.
  rewrite py_truediv_nonzero by lra. cbn [bind].
  rewrite np_log_pos by (now apply Rdiv_lt_0_compat).
  rewrite np_sqrt_nonneg by lra.
  pose proof (vol_sqrt_expiry_pos _ _ Hs HT) as Hden.
  cbn [fadd fmul fsub fneg].
  rewrite fdiv_fin by lra.
  reflexivity.
Qed.

Lemma Ropp_mult_exp (a b : R) : exp (- a * b) = exp (- (a * b)).
Proof. f_equal. ring. Qed.

(** ** Prices *)

Lemma equity_price_well_formed (o : Equity.EquityOption) :
  Equity.well_formed o -> is_call_or_put (Equity.option_type o) ->
  Equity.black_scholes_merton o = Returns (NpFloat (Fin (equity_price o))).
Proof.
  intros Hwf Hty. unfold Equity.black_scholes_merton, equity_price.
  rewrite equity_d1_d2_well_formed by exact Hwf.
  destruct Hty as [-> | ->]; cbn; unfold np_exp; cbn;
    rewrite !Ropp_mult_exp; reflexivity.
Qed.

Lemma fx_price_well_formed (o : FX.Option) :
  FX.well_formed o -> is_call_or_put (FX.option_type o) ->
  FX.black_scholes o = Returns (NpFloat (Fin (fx_price o))).
Proof.
  intros Hwf Hty. unfold FX.black_scholes, fx_price.
  rewrite fx_d1_d2_well_formed by exact Hwf.
  destruct Hty as [-> | ->]; cbn; unfold np_exp; cbn;
    rewrite !Ropp_mult_exp; reflexivity.
Qed.

(** C1.  On an equity leg of the data model (strike and spot positive) with
    positive implied_vol and expiry, [black_scholes_merton] returns
    S e^(-qT) Phi(d1) - K e^(-rT) Phi(d2) for a call and
    K e^(-rT) Phi(-d2) - S e^(-qT) Phi(-d1) for a put, with d1 and d2 as the
    specification defines them. *)
Theorem black_scholes_merton_formula (S K r q sigma T : R) :
  0 < K -> 0 < S -> 0 < sigma -> 0 < T ->
  Equity.black_scholes_merton (Equity.mkEquityOption K T "call" sigma S r q)
  = Returns (NpFloat (Fin (Spec.equity_call S K r q sigma T)))
  /\
  Equity.black_scholes_merton (Equity.mkEquityOption K T "put" sigma S r q)
  = Returns (NpFloat (Fin (Spec.equity_put S K r q sigma T))).
Proof.
  intros HK HS Hs HT.
  split; rewrite equity_price_well_formed;
    try reflexivity; try (repeat split; assumption); cbn;
    [left | right]; reflexivity.
Qed.

Lemma black_scholes_merton_formula_witness :
  Equity.black_scholes_merton (Equity.mkEquityOption 95 1 "put" 0.2 100 0.02 0.03)
  = Returns (NpFloat (Fin (Spec.equity_put 100 95 0.02 0.03 0.2 1))).
Proof.
  apply (black_scholes_merton_formula 100 95 0.02 0.03 0.2 1); lra.
Defined.

(** C2.  On an FX leg of the data model with positive implied_vol and expiry,
    [black_scholes] returns S Phi(d1) - K e^(-rT) Phi(d2) for a call and
    K e^(-rT) Phi(-d2) - S Phi(-d1) for a put; the spot term carries no
    discount factor. *)
Theorem black_scholes_formula (S K r sigma T : R) :
  0 < K -> 0 < S -> 0 < sigma -> 0 < T ->
  FX.black_scholes (FX.mkOption K T "call" sigma S r)
  = Returns (NpFloat (Fin (Spec.fx_call S K r sigma T)))
  /\
  FX.black_scholes (FX.mkOption K T "put" sigma S r)
  = Returns (NpFloat (Fin (Spec.fx_put S K r sigma T))).
Proof.
  intros HK HS Hs HT.
  split; rewrite fx_price_well_formed;
    try reflexivity; try (repeat split; assumption); cbn;
    [left | right]; reflexivity.
Qed.

Lemma black_scholes_formula_witness :
  FX.black_scholes (FX.mkOption 147 0.5 "call" 0.10 145 0.01)
  = Returns (NpFloat (Fin (Spec.fx_call 145 147 0.01 0.10 0.5))).
Proof.
  apply (black_scholes_formula 145 147 0.01 0.10 0.5); lra.
Defined.

(** ** Put-call parity *)

Lemma equity_parity (S K r q sigma T : R) :
  Spec.equity_call S K r q sigma T - Spec.equity_put S K r q sigma T
  = S * exp (- (q * T)) - K * exp (- (r * T)).
Proof.
  unfold Spec.equity_call, Spec.equity_put.
  rewrite !norm_cdf_reflect. ring.
Qed.

Lemma fx_parity (S K r sigma T : R) :
  Spec.fx_call S K r sigma T - Spec.fx_put S K r sigma T
  = S - K * exp (- (r * T)).
Proof.
  unfold Spec.fx_call, Spec.fx_put.
  rewrite !norm_cdf_reflect. ring.
Qed.

(** C3.  Put-call parity.  A call and a put of the same model that agree on
    strike, expiry, implied_vol, spot and interest_rate (and dividend_yield),
    all positive where the data model says so, have prices c and p with
    c - p = S e^(-qT) - K e^(-rT) in the equity model and
    c - p = S - K e^(-rT) in the FX model. *)
Theorem put_call_parity (S K r q sigma T : R) :
  0 < K -> 0 < S -> 0 < sigma -> 0 < T ->
  (exists c p : R,
      Equity.black_scholes_merton (Equity.mkEquityOption K T "call" sigma S r q)
      = Returns (NpFloat (Fin c))
      /\ Equity.black_scholes_merton (Equity.mkEquityOption K T "put" sigma S r q)
         = Returns (NpFloat (Fin p))
      /\ c - p = S * exp (- (q * T)) - K * exp (- (r * T)))
  /\
  (exists c p : R,
      FX.black_scholes (FX.mkOption K T "call" sigma S r) = Returns (NpFloat (Fin c))
      /\ FX.black_scholes (FX.mkOption K T "put" sigma S r) = Returns (NpFloat (Fin p))
      /\ c - p = S - K * exp (- (r * T))).
Proof.
  intros HK HS Hs HT. split.
  - exists (Spec.equity_call S K r q sigma T), (Spec.equity_put S K r q sigma T).
    repeat split.
    + rewrite equity_price_well_formed;
        [reflexivity | repeat split; assumption | left; reflexivity].
    + rewrite equity_price_well_formed;
        [reflexivity | repeat split; assumption | right; reflexivity].
    + apply equity_parity.
  - exists (Spec.fx_call S K r sigma T), (Spec.fx_put S K r sigma T).
    repeat split.
    + rewrite fx_price_well_formed;
        [reflexivity | repeat split; assumption | left; reflexivity].
    + rewrite fx_price_well_formed;
        [reflexivity | repeat split; assumption | right; reflexivity].
    + apply fx_parity.
Qed.

Lemma put_call_parity_witness :
  exists c p : R,
    FX.black_scholes (FX.mkOption 145 0.5 "call" 0.12 145 0.01) = Returns (NpFloat (Fin c))
    /\ FX.black_scholes (FX.mkOption 145 0.5 "put" 0.12 145 0.01) = Returns (NpFloat (Fin p))
    /\ c - p = 145 - 145 * exp (- (0.01 * 0.5)).
Proof.
  apply (put_call_parity 145 145 0.01 0 0.12 0.5); lra.
Defined.

(** ** Gamma and vega *)

Lemma fx_gamma_well_formed (o : FX.Option) :
  FX.well_formed o ->
  FX.gamma o =
  Returns (NpFloat (Fin (norm_pdf (Spec.fx_d1 (FX.spot o) (FX.strike o)
                                     (FX.interest_rate o) (FX.implied_vol o)
                                     (FX.expiry o))
                         / (FX.spot o * FX.implied_vol o * sqrt (FX.expiry o))))).
Proof.
  intros Hwf. unfold FX.gamma.
  rewrite fx_d1_d2_well_formed by exact Hwf.
  destruct Hwf as (HK & HT & Hs & HS).
  cbn [bind fst snd]. rewrite np_sqrt_nonneg by lra.
  cbn [stats_norm_pdf fmul].
  pose proof (vol_sqrt_expiry_pos _ _ Hs HT).
  rewrite fdiv_fin by nra. reflexivity.
Qed.

Lemma fx_vega_well_formed (o : FX.Option) :
  FX.well_formed o ->
  FX.vega o =
  Returns (NpFloat (Fin (FX.spot o
                         * norm_pdf (Spec.fx_d1 (FX.spot o) (FX.strike o)
                                       (FX.interest_rate o) (FX.implied_vol o)
                                       (FX.expiry o))
                         * sqrt (FX.expiry o) / 100))).
Proof.
  intros Hwf. unfold FX.vega.
  rewrite fx_d1_d2_well_formed by exact Hwf.
  destruct Hwf as (HK & HT & Hs & HS).
  cbn [bind fst snd]. rewrite np_sqrt_nonneg by lra.
  cbn [stats_norm_pdf fmul].
  rewrite fdiv_fin by lra. reflexivity.
Qed.

Lemma equity_gamma_well_formed (o : Equity.EquityOption) :
  Equity.well_formed o ->
  Equity.gamma o =
  Returns (NpFloat (Fin (norm_pdf (Spec.d1 (Equity.spot o) (Equity.strike o)
                                     (Equity.interest_rate o) (Equity.dividend_yield o)
                                     (Equity.implied_vol o) (Equity.expiry o))
                         / (Equity.spot o * Equity.implied_vol o
                            * sqrt (Equity.expiry o))))).
Proof.
  intros Hwf. unfold Equity.gamma.
  rewrite equity_d1_d2_well_formed by exact Hwf.
  destruct Hwf as (HK & HT & Hs & HS).
  cbn [bind fst snd]. rewrite np_sqrt_nonneg by lra.
  cbn [stats_norm_pdf fmul].
  pose proof (vol_sqrt_expiry_pos _ _ Hs HT).
  rewrite fdiv_fin by nra. reflexivity.
Qed.

Lemma equity_vega_well_formed (o : Equity.EquityOption) :
  Equity.well_formed o ->
  Equity.vega o =
  Returns (NpFloat (Fin (Equity.spot o
                         * exp (- Equity.dividend_yield o * Equity.expiry o)
                         * norm_pdf (Spec.d1 (Equity.spot o) (Equity.strike o)
                                       (Equity.interest_rate o)
                                       (Equity.dividend_yield o)
                                       (Equity.implied_vol o) (Equity.expiry o))
                         * sqrt (Equity.expiry o) / 100))).
Proof.
  intros Hwf. unfold Equity.vega.
  rewrite equity_d1_d2_well_formed by exact Hwf.
  destruct Hwf as (HK & HT & Hs & HS).
  cbn [bind fst snd]. rewrite np_sqrt_nonneg by lra.
  unfold np_exp. cbn [stats_norm_pdf fmul].
  rewrite fdiv_fin by lra. reflexivity.
Qed.

Lemma gamma_value_nonneg (S sigma T d : R) :
  0 < S -> 0 < sigma -> 0 < T -> 0 <= norm_pdf d / (S * sigma * sqrt T).
Proof.
  intros HS Hs HT. apply Rlt_le, Rdiv_lt_0_compat; [apply norm_pdf_pos | ].
  rewrite Rmult_assoc.
  apply Rmult_lt_0_compat; [exact HS | now apply vol_sqrt_expiry_pos].
Qed.

Lemma vega_value_nonneg (S disc T d : R) :
  0 < S -> 0 < disc -> 0 < T -> 0 <= S * disc * norm_pdf d * sqrt T / 100.
Proof.
  intros HS Hd HT.
  pose proof (norm_pdf_pos d) as Hp. pose proof (sqrt_lt_R0 T HT) as Hq.
  apply Rlt_le, Rdiv_lt_0_compat; [ | lra].
  apply Rmult_lt_0_compat; [ | exact Hq].
  apply Rmult_lt_0_compat; [ | exact Hp].
  apply Rmult_lt_0_compat; assumption.
Qed.

(** C9.  On a leg of either model with positive spot, implied_vol and expiry
    (and the positive strike of the data model), [gamma] and [vega] return
    numbers that are >= 0, whatever the option type. *)
Theorem gamma_vega_nonnegative (S K r q sigma T : R) (ty : string) :
  0 < K -> 0 < S -> 0 < sigma -> 0 < T ->
  (exists g v : R,
      FX.gamma (FX.mkOption K T ty sigma S r) = Returns (NpFloat (Fin g))
      /\ FX.vega (FX.mkOption K T ty sigma S r) = Returns (NpFloat (Fin v))
      /\ 0 <= g /\ 0 <= v)
  /\
  (exists g v : R,
      Equity.gamma (Equity.mkEquityOption K T ty sigma S r q) = Returns (NpFloat (Fin g))
      /\ Equity.vega (Equity.mkEquityOption K T ty sigma S r q) = Returns (NpFloat (Fin v))
      /\ 0 <= g /\ 0 <= v).
Proof.
  intros HK HS Hs HT. split.
  - assert (Hwf : FX.well_formed (FX.mkOption K T ty sigma S r))
      by (repeat split; assumption).
    eexists; eexists. split; [apply (fx_gamma_well_formed _ Hwf) | ].
    split; [apply (fx_vega_well_formed _ Hwf) | ].
    cbn [FX.spot FX.implied_vol FX.expiry]. split.
    + now apply gamma_value_nonneg.
    + rewrite <- (Rmult_1_r S) at 1. apply vega_value_nonneg; lra.
  - assert (Hwf : Equity.well_formed (Equity.mkEquityOption K T ty sigma S r q))
      by (repeat split; assumption).
    eexists; eexists. split; [apply (equity_gamma_well_formed _ Hwf) | ].
    split; [apply (equity_vega_well_formed _ Hwf) | ].
    cbn [Equity.spot Equity.implied_vol Equity.expiry Equity.dividend_yield]. split.
    + now apply gamma_value_nonneg.
    + apply vega_value_nonneg; [exact HS | apply exp_pos | exact HT].
Qed.

Lemma gamma_vega_nonnegative_witness :
  exists g v : R,
    Equity.gamma (Equity.mkEquityOption 105 1 "call" 0.16 100 0.02 0.03)
    = Returns (NpFloat (Fin g))
    /\ Equity.vega (Equity.mkEquityOption 105 1 "call" 0.16 100 0.02 0.03)
       = Returns (NpFloat (Fin v))
    /\ 0 <= g /\ 0 <= v.
Proof.
  apply (gamma_vega_nonnegative 100 105 0.02 0.03 0.16 1 "call"); lra.
Defined.

(** ** An option type that is neither 'call' nor 'put' *)

Lemma eqb_call_put (ty : string) :
  ty <> "call"%string -> ty <> "put"%string ->
  (ty =? "call")%string = false /\ (ty =? "put")%string = false.
Proof.
  intros Hc Hp. split; now apply String.eqb_neq.
Qed.

Lemma fx_d1_d2_returns (o : FX.Option) :
  FX.strike o <> 0 -> exists d, FX.d1_d2 o = Returns d.
Proof.
  intros HK. unfold FX.d1_d2. rewrite py_truediv_nonzero by exact HK.
  cbn [bind]. eexists. reflexivity.
Qed.

Lemma equity_d1_d2_returns (o : Equity.EquityOption) :
  Equity.strike o <> 0 -> exists d, Equity.d1_d2 o = Returns d.
Proof.
  intros HK. unfold Equity.d1_d2. rewrite py_truediv_nonzero by exact HK.
  cbn [bind]. eexists. reflexivity.
Qed.

(** C4.  On a leg of either model whose option_type is neither 'call' nor
    'put' (and whose strike is not zero, so that d1 is reached), the price
    raises ValueError, [delta] has no return statement to reach and gives
    [None], [theta] and [rho] read a local variable that was never assigned
    (UnboundLocalError); [gamma] and [vega] do not look at the option type:
    they give the same result under any other option type. *)
Theorem unrecognised_option_type (S K r q sigma T : R) (ty : string) :
  ty <> "call"%string -> ty <> "put"%string -> K <> 0 ->
  (FX.black_scholes (FX.mkOption K T ty sigma S r) = Raises bad_type
   /\ FX.delta (FX.mkOption K T ty sigma S r) = Returns PyNone
   /\ FX.theta (FX.mkOption K T ty sigma S r) = Raises (UnboundLocalError "theta")
   /\ FX.rho (FX.mkOption K T ty sigma S r) = Raises (UnboundLocalError "rho")
   /\ forall ty' : string,
       FX.gamma (FX.mkOption K T ty sigma S r)
       = FX.gamma (FX.mkOption K T ty' sigma S r)
       /\ FX.vega (FX.mkOption K T ty sigma S r)
          = FX.vega (FX.mkOption K T ty' sigma S r))
  /\
  (Equity.black_scholes_merton (Equity.mkEquityOption K T ty sigma S r q)
   = Raises bad_type
   /\ Equity.delta (Equity.mkEquityOption K T ty sigma S r q) = Returns PyNone
   /\ Equity.theta (Equity.mkEquityOption K T ty sigma S r q)
      = Raises (UnboundLocalError "theta")
   /\ Equity.rho (Equity.mkEquityOption K T ty sigma S r q)
      = Raises (UnboundLocalError "rho")
   /\ forall ty' : string,
       Equity.gamma (Equity.mkEquityOption K T ty sigma S r q)
       = Equity.gamma (Equity.mkEquityOption K T ty' sigma S r q)
       /\ Equity.vega (Equity.mkEquityOption K T ty sigma S r q)
          = Equity.vega (Equity.mkEquityOption K T ty' sigma S r q)).
Proof.
  intros Hc Hp HK.
  destruct (eqb_call_put ty Hc Hp) as [Ec Ep].
  split.
  - destruct (fx_d1_d2_returns (FX.mkOption K T ty sigma S r) HK) as [d Hd].
    unfold FX.black_scholes, FX.delta, FX.theta, FX.rho.
    rewrite Hd. cbn [bind FX.option_type]. rewrite Ec, Ep. cbn [bind].
    repeat split; reflexivity.
  - destruct (equity_d1_d2_returns (Equity.mkEquityOption K T ty sigma S r q) HK)
      as [d Hd].
    unfold Equity.black_scholes_merton, Equity.delta, Equity.theta, Equity.rho.
    rewrite Hd. cbn [bind Equity.option_type]. rewrite Ec, Ep. cbn [bind].
    repeat split; reflexivity.
Qed.

Lemma unrecognised_option_type_witness :
  FX.black_scholes (FX.mkOption 143 0.5 "straddle" 0.15 145 0.01) = Raises bad_type
  /\ FX.delta (FX.mkOption 143 0.5 "straddle" 0.15 145 0.01) = Returns PyNone
  /\ FX.theta (FX.mkOption 143 0.5 "straddle" 0.15 145 0.01)
     = Raises (UnboundLocalError "theta")
  /\ FX.rho (FX.mkOption 143 0.5 "straddle" 0.15 145 0.01)
     = Raises (UnboundLocalError "rho")
  /\ forall ty' : string,
      FX.gamma (FX.mkOption 143 0.5 "straddle" 0.15 145 0.01)
      = FX.gamma (FX.mkOption 143 0.5 ty' 0.15 145 0.01)
      /\ FX.vega (FX.mkOption 143 0.5 "straddle" 0.15 145 0.01)
         = FX.vega (FX.mkOption 143 0.5 ty' 0.15 145 0.01).
Proof.
  apply (unrecognised_option_type 145 143 0.01 0 0.15 0.5 "straddle");
    [discriminate | discriminate | lra].
Defined.

(** ** The builtin sum *)

Lemma sum_from_floats (items : list (outcome value)) (vs : list float64) :
  Forall2 (fun item v => item = Returns (NpFloat v)) items vs ->
  forall a : float64,
    sum_from (NpFloat a) items = Returns (NpFloat (fold_left fadd vs a)).
Proof.
  induction 1 as [ | item v items vs Hitem _ IH]; intros a.
  - reflexivity.
  - subst item. cbn [sum_from bind py_add fold_left]. apply IH.
Qed.

Lemma py_sum_floats (items : list (outcome value)) (vs : list float64) :
  Forall2 (fun item v => item = Returns (NpFloat v)) items vs ->
  py_sum items =
  Returns (match vs with
           | [] => PyNum 0
           | _ :: _ => NpFloat (fold_left fadd vs (Fin 0))
           end).
Proof.
  intros H. unfold py_sum. destruct H as [ | item v items vs Hitem H].
  - reflexivity.
  - subst item. cbn [sum_from bind py_add fold_left].
    now apply sum_from_floats.
Qed.

Lemma sum_from_first_raise (pre post : list (outcome value)) (e : exn) :
  Forall (fun item => exists a, item = Returns (NpFloat a)) pre ->
  forall t : value, is_number t ->
    sum_from t (pre ++ Raises e :: post) = Raises e.
Proof.
  induction 1 as [ | item pre [a ->] _ IH]; intros t Ht.
  - reflexivity.
  - cbn [app sum_from bind].
    destruct t as [x | b | ]; [ | | contradiction]; cbn [py_add bind];
      apply IH; exact I.
Qed.

Lemma sum_from_fails (items : list (outcome value)) :
  Exists (fun item => item = Returns PyNone \/ exists e, item = Raises e) items ->
  forall t : value, exists e', sum_from t items = Raises e'.
Proof.
  induction 1 as [item items [-> | [e ->]] | item items _ IH]; intros t.
  - exists TypeError. cbn [sum_from bind]. destruct t; reflexivity.
  - exists e. reflexivity.
  - cbn [sum_from]. destruct item as [v | e]; [ | exists e; reflexivity].
    cbn [bind]. destruct (py_add t v) as [t' | e]; [ | exists e; reflexivity].
    cbn [bind]. apply IH.
Qed.

Lemma Forall2_map_l {A B C : Type} (f : A -> B) (P : B -> C -> Prop)
      (l : list A) (l' : list C) :
  Forall2 (fun x y => P (f x) y) l l' -> Forall2 P (map f l) l'.
Proof.
  induction 1; constructor; assumption.
Qed.

Lemma Forall_map_l {A B : Type} (f : A -> B) (P : B -> Prop) (l : list A) :
  Forall (fun x => P (f x)) l -> Forall P (map f l).
Proof.
  induction 1; constructor; assumption.
Qed.

(** The price of a leg is a numpy.float64 whenever it returns. *)
Lemma black_scholes_returns_float (o : FX.Option) (v : value) :
  FX.black_scholes o = Returns v -> exists a, v = NpFloat a.
Proof.
  unfold FX.black_scholes. destruct (FX.d1_d2 o) as [d | e]; [ | discriminate].
  cbn [bind].
  destruct (FX.option_type o =? "call")%string;
    [intros [= <-]; eexists; reflexivity | ].
  destruct (FX.option_type o =? "put")%string;
    [intros [= <-]; eexists; reflexivity | discriminate].
Qed.

(** ** Strategies *)

(** C5.  [strategy_price] and [strategy_delta] add the legs' prices and
    deltas from 0, in the order of the legs; the first leg whose computation
    raises makes the aggregate raise that error, and a raising leg anywhere
    makes the aggregate raise, so that no partial sum is returned;
    [RiskReversal] and [Straddle] build the same two legs [put; call]. *)
Theorem strategy_aggregation :
  (forall put call : FX.Option,
      FX.RiskReversal put call = FX.Straddle put call
      /\ FX.options (FX.RiskReversal put call) = [put; call]
      /\ FX.options (FX.Straddle put call) = [put; call])
  /\
  (forall (legs : list FX.Option) (vs : list float64),
      (Forall2 (fun o v => FX.black_scholes o = Returns (NpFloat v)) legs vs ->
       FX.strategy_price (FX.mkStrategy legs) =
       Returns (match vs with
                | [] => PyNum 0
                | _ :: _ => NpFloat (fold_left fadd vs (Fin 0))
                end))
      /\
      (Forall2 (fun o v => FX.delta o = Returns (NpFloat v)) legs vs ->
       FX.strategy_delta (FX.mkStrategy legs) =
       Returns (match vs with
                | [] => PyNum 0
                | _ :: _ => NpFloat (fold_left fadd vs (Fin 0))
                end)))
  /\
  (forall (pre post : list FX.Option) (o : FX.Option) (e : exn),
      (Forall (fun o' => exists v, FX.black_scholes o' = Returns v) pre ->
       FX.black_scholes o = Raises e ->
       FX.strategy_price (FX.mkStrategy (pre ++ o :: post)) = Raises e)
      /\
      (Forall (fun o' => exists a, FX.delta o' = Returns (NpFloat a)) pre ->
       FX.delta o = Raises e ->
       FX.strategy_delta (FX.mkStrategy (pre ++ o :: post)) = Raises e))
  /\
  (forall (legs : list FX.Option) (o : FX.Option) (e : exn),
      In o legs ->
      (FX.black_scholes o = Raises e ->
       exists e', FX.strategy_price (FX.mkStrategy legs) = Raises e')
      /\
      (FX.delta o = Raises e ->
       exists e', FX.strategy_delta (FX.mkStrategy legs) = Raises e')).
Proof.
  split; [ | split; [ | split]].
  - intros put call. repeat split.
  - intros legs vs. split; intros H;
      unfold FX.strategy_price, FX.strategy_delta; cbn [FX.options];
      apply py_sum_floats, Forall2_map_l, H.
  - intros pre post o e. split; intros Hpre Ho;
      unfold FX.strategy_price, FX.strategy_delta, py_sum; cbn [FX.options];
      rewrite map_app; cbn [map]; rewrite Ho;
      apply sum_from_first_raise; try exact I; apply Forall_map_l.
    + revert Hpre. apply Forall_impl. intros o' [v Hv].
      destruct (black_scholes_returns_float o' v Hv) as [a ->].
      exists a. exact Hv.
    + exact Hpre.
  - intros legs o e Hin. split; intros Ho;
      unfold FX.strategy_price, FX.strategy_delta, py_sum; cbn [FX.options];
      apply sum_from_fails, Exists_exists;
      [exists (FX.black_scholes o) | exists (FX.delta o)];
      (split; [now apply in_map | right; exists e; exact Ho]).
Qed.

Lemma main_put_option_well_formed : FX.well_formed FX.main_put_option.
Proof. unfold FX.well_formed. cbn. lra. Qed.

Lemma main_call_option_well_formed : FX.well_formed FX.main_call_option.
Proof. unfold FX.well_formed. cbn. lra. Qed.

Lemma main_put_option_price :
  FX.black_scholes FX.main_put_option
  = Returns (NpFloat (Fin (Spec.fx_put 145 143 0.01 0.15 0.5))).
Proof.
  rewrite fx_price_well_formed;
    [reflexivity | exact main_put_option_well_formed | right; reflexivity].
Qed.

Lemma main_call_option_price :
  FX.black_scholes FX.main_call_option
  = Returns (NpFloat (Fin (Spec.fx_call 145 147 0.01 0.10 0.5))).
Proof.
  rewrite fx_price_well_formed;
    [reflexivity | exact main_call_option_well_formed | left; reflexivity].
Qed.

Lemma strategy_aggregation_witness :
  FX.strategy_price FX.main_risk_reversal
  = Returns (NpFloat (Fin (0 + Spec.fx_put 145 143 0.01 0.15 0.5
                           + Spec.fx_call 145 147 0.01 0.10 0.5))).
Proof.
  apply (proj1 (proj1 (proj2 strategy_aggregation)
                  [FX.main_put_option; FX.main_call_option]
                  [Fin (Spec.fx_put 145 143 0.01 0.15 0.5);
                   Fin (Spec.fx_call 145 147 0.01 0.10 0.5)])).
  repeat constructor; [exact main_put_option_price | exact main_call_option_price].
Defined.

Lemma strategy_price_four (a b c d : outcome value) (x y z w : float64) :
  a = Returns (NpFloat x) -> b = Returns (NpFloat y) ->
  c = Returns (NpFloat z) -> d = Returns (NpFloat w) ->
  py_sum [a; b; c; d] = Returns (NpFloat (Fin 0 + x + y + z + w)).
Proof.
  intros -> -> -> ->. reflexivity.
Qed.

(** C6.  [Butterfly] builds the four legs [lower; middle; middle; upper], so
    that in [strategy_price] and [strategy_delta] the middle leg is added
    twice and the lower and upper legs once each. *)
Theorem butterfly_weighting (lower middle upper : FX.Option) :
  FX.options (FX.Butterfly lower middle upper) = [lower; middle; middle; upper]
  /\
  (forall a b c : float64,
      FX.black_scholes lower = Returns (NpFloat a) ->
      FX.black_scholes middle = Returns (NpFloat b) ->
      FX.black_scholes upper = Returns (NpFloat c) ->
      FX.strategy_price (FX.Butterfly lower middle upper)
      = Returns (NpFloat (Fin 0 + a + b + b + c)))
  /\
  (forall a b c : float64,
      FX.delta lower = Returns (NpFloat a) ->
      FX.delta middle = Returns (NpFloat b) ->
      FX.delta upper = Returns (NpFloat c) ->
      FX.strategy_delta (FX.Butterfly lower middle upper)
      = Returns (NpFloat (Fin 0 + a + b + b + c)))
  /\
  (forall a b c : R,
      FX.black_scholes lower = Returns (NpFloat (Fin a)) ->
      FX.black_scholes middle = Returns (NpFloat (Fin b)) ->
      FX.black_scholes upper = Returns (NpFloat (Fin c)) ->
      FX.strategy_price (FX.Butterfly lower middle upper)
      = Returns (NpFloat (Fin (a + 2 * b + c))))
  /\
  (forall a b c : R,
      FX.delta lower = Returns (NpFloat (Fin a)) ->
      FX.delta middle = Returns (NpFloat (Fin b)) ->
      FX.delta upper = Returns (NpFloat (Fin c)) ->
      FX.strategy_delta (FX.Butterfly lower middle upper)
      = Returns (NpFloat (Fin (a + 2 * b + c)))).
Proof.
  split; [reflexivity | ].
  split; [intros a b c Ha Hb Hc; now apply strategy_price_four | ].
  split; [intros a b c Ha Hb Hc; now apply strategy_price_four | ].
  split; intros a b c Ha Hb Hc;
    unfold FX.strategy_price, FX.strategy_delta; cbn [FX.Butterfly FX.options map];
    rewrite (strategy_price_four _ _ _ _ _ _ _ _ Ha Hb Hb Hc);
    cbn [fadd]; do 3 f_equal; ring.
Qed.

Lemma butterfly_weighting_witness :
  FX.strategy_price
    (FX.Butterfly FX.main_put_option FX.main_call_option FX.main_put_option)
  = Returns (NpFloat (Fin (Spec.fx_put 145 143 0.01 0.15 0.5
                           + 2 * Spec.fx_call 145 147 0.01 0.10 0.5
                           + Spec.fx_put 145 143 0.01 0.15 0.5))).
Proof.
  apply (proj1 (proj2 (proj2 (proj2
           (butterfly_weighting FX.main_put_option FX.main_call_option
              FX.main_put_option)))));
    [exact main_put_option_price | exact main_call_option_price
     | exact main_put_option_price].
Defined.

(** ** The z-score *)

Lemma mean_is_population_mean (l : list R) : mean l = Spec.population_mean l.
Proof. reflexivity. Qed.

Lemma std_is_population_std (l : list R) :
  sqrt (mean (map (fun x => Rabs (x - mean l) ^ 2) l)) = Spec.population_std l.
Proof.
  unfold Spec.population_std, mean, total. rewrite length_map.
  do 3 f_equal. apply map_ext. intros x. apply pow2_abs.
Qed.

Lemma dict_get_some_values {K : Type} (K_eq_dec : forall a b : K, {a = b} + {a <> b})
      (d : list (K * R)) (k : K) (v : R) :
  dict_get K_eq_dec d k = Some v -> dict_values d <> [].
Proof.
  destruct d as [ | [k' v'] d]; [discriminate | ].
  intros _. discriminate.
Qed.

(** C7.  When the strike is a key of the mapping, with value v, and the
    population standard deviation of the mapping's values is not zero,
    [z_score] returns (v - mean) / std, mean and std being the population
    mean and the population standard deviation (division by N) of all the
    values; when the strike is not a key, it raises ValueError (no implied
    volatility found for the strike). *)
Theorem z_score_population {K : Type}
        (K_eq_dec : forall a b : K, {a = b} + {a <> b}) (str : K -> string)
        (implied_vols : list (K * R)) (strike : K) :
  (forall v : R,
      dict_get K_eq_dec implied_vols strike = Some v ->
      Spec.population_std (dict_values implied_vols) <> 0 ->
      z_score K_eq_dec str implied_vols strike
      = Returns (NpFloat (Fin ((v - Spec.population_mean (dict_values implied_vols))
                               / Spec.population_std (dict_values implied_vols)))))
  /\
  (dict_get K_eq_dec implied_vols strike = None ->
   z_score K_eq_dec str implied_vols strike
   = Raises (ValueError ("No implied volatility found for strike " ++ str strike))).
Proof.
  unfold z_score. split.
  - intros v Hget Hstd. rewrite Hget.
    pose proof (dict_get_some_values K_eq_dec _ _ _ Hget) as Hne.
    unfold np_mean, np_std.
    destruct (dict_values implied_vols) as [ | x l] eqn:Hvals; [now elim Hne | ].
    rewrite std_is_population_std, mean_is_population_mean.
    cbn [fsub fneg fadd]. rewrite fdiv_fin by exact Hstd. reflexivity.
  - intros ->. reflexivity.
Qed.

Lemma main_vols_std_nonzero :
  Spec.population_std (dict_values Equity.main_implied_vols) <> 0.
Proof.
  apply Rgt_not_eq, sqrt_lt_R0.
  unfold Spec.population_mean. cbn. lra.
Qed.

Lemma z_score_population_witness :
  z_score Z.eq_dec str_of_strike Equity.main_implied_vols 95%Z
  = Returns (NpFloat (Fin ((0.2 - Spec.population_mean [0.2; 0.18; 0.16])
                           / Spec.population_std [0.2; 0.18; 0.16])))
  /\
  z_score Z.eq_dec str_of_strike [(95%Z, 0.2); (100%Z, 0.18)] 110%Z
  = Raises (ValueError "No implied volatility found for strike 110").
Proof.
  split.
  - apply (proj1 (z_score_population Z.eq_dec str_of_strike
                    Equity.main_implied_vols 95%Z) 0.2);
      [reflexivity | exact main_vols_std_nonzero].
  - apply (proj2 (z_score_population Z.eq_dec str_of_strike
                    [(95%Z, 0.2); (100%Z, 0.18)] 110%Z)).
    reflexivity.
Defined.

(** ** Break-even *)

Lemma break_even_float (s : FX.Strategy) (move : R) (a : float64) :
  FX.strategy_price s = Returns (NpFloat a) ->
  FX.break_even s move = Returns (NpFloat (a / Fin move)).
Proof.
  intros H. unfold FX.break_even. rewrite H. reflexivity.
Qed.

Lemma main_risk_reversal_price :
  FX.strategy_price FX.main_risk_reversal
  = Returns (NpFloat (Fin (0 + Spec.fx_put 145 143 0.01 0.15 0.5
                           + Spec.fx_call 145 147 0.01 0.10 0.5))).
Proof.
  unfold FX.strategy_price, FX.main_risk_reversal. cbn [FX.RiskReversal FX.options].
  apply (py_sum_floats _ [Fin (Spec.fx_put 145 143 0.01 0.15 0.5);
                          Fin (Spec.fx_call 145 147 0.01 0.10 0.5)]).
  repeat constructor; [exact main_put_option_price | exact main_call_option_price].
Qed.

(** C8, as stated, fails: with underlying_move = 0 the risk reversal of
    [main] does not raise; the division is numpy's and returns a value that
    is not finite. *)
Lemma break_even_zero_move_returns :
  exists a : float64,
    FX.break_even FX.main_risk_reversal 0 = Returns (NpFloat a)
    /\ is_finite a = false.
Proof.
  eexists. split.
  - apply break_even_float, main_risk_reversal_price.
  - apply fdiv_zero_not_finite.
Qed.

(** C8, amended.  [break_even] returns strategy_price() / underlying_move
    when underlying_move is not zero and propagates a failure of the
    strategy's pricing.  When underlying_move is zero it raises
    (ZeroDivisionError) only for a strategy without legs, whose price is the
    Python number 0; the price of a strategy with legs is a numpy.float64,
    and the division returns a value that is not finite. *)
Theorem break_even_division (s : FX.Strategy) (move : R) :
  (forall e : exn,
      FX.strategy_price s = Raises e -> FX.break_even s move = Raises e)
  /\
  (forall p : R,
      FX.strategy_price s = Returns (NpFloat (Fin p)) -> move <> 0 ->
      FX.break_even s move = Returns (NpFloat (Fin (p / move))))
  /\
  (forall a : float64,
      FX.strategy_price s = Returns (NpFloat a) ->
      FX.break_even s move = Returns (NpFloat (a / Fin move)))
  /\
  (forall a : float64,
      FX.strategy_price s = Returns (NpFloat a) -> move = 0 ->
      exists b : float64,
        FX.break_even s move = Returns (NpFloat b) /\ is_finite b = false)
  /\
  (FX.options s = [] ->
   FX.strategy_price s = Returns (PyNum 0)
   /\ (move <> 0 -> FX.break_even s move = Returns (PyNum (0 / move)))
   /\ (move = 0 -> FX.break_even s move = Raises ZeroDivisionError)).
Proof.
  split; [intros e H; unfold FX.break_even; now rewrite H | ].
  split; [intros p H Hm; rewrite (break_even_float _ _ _ H);
          now rewrite fdiv_fin | ].
  split; [intros a H; now apply break_even_float | ].
  split.
  - intros a H ->. exists (a / Fin 0)%f64.
    split; [exact (break_even_float _ _ _ H) | apply fdiv_zero_not_finite].
  - intros Hnil. unfold FX.break_even, FX.strategy_price. rewrite Hnil.
    cbn [map py_sum sum_from bind py_div].
    split; [reflexivity | ]. split.
    + intros Hm. now rewrite py_truediv_nonzero.
    + intros ->. now rewrite py_truediv_zero.
Qed.

Lemma break_even_division_witness :
  FX.break_even FX.main_risk_reversal 2
  = Returns (NpFloat (Fin ((0 + Spec.fx_put 145 143 0.01 0.15 0.5
                            + Spec.fx_call 145 147 0.01 0.10 0.5) / 2))).
Proof.
  apply (proj1 (proj2 (break_even_division FX.main_risk_reversal 2)));
    [exact main_risk_reversal_price | lra].
Defined.

(** ** The FX model and the equity model without dividend *)

Lemma equity_of_fx_d1_d2 (o : FX.Option) :
  Equity.d1_d2 (Equity.of_fx o) = FX.d1_d2 o.
Proof.
  unfold Equity.d1_d2, FX.d1_d2, Equity.of_fx.
  cbn [Equity.spot Equity.strike Equity.interest_rate Equity.dividend_yield
       Equity.implied_vol Equity.expiry].
  replace (FX.interest_rate o - 0 + 0.5 * FX.implied_vol o ^ 2)
    with (FX.interest_rate o + 0.5 * FX.implied_vol o ^ 2) by ring.
  reflexivity.
Qed.

Lemma fmul_fin_1 (x : R) (a : float64) : (Fin x * Fin 1 * a)%f64 = (Fin x * a)%f64.
Proof. cbn [fmul]. now rewrite Rmult_1_r. Qed.

Lemma fadd_nan_l (a : float64) : (NaN + a)%f64 = NaN.
Proof. destruct a; reflexivity. Qed.

Lemma fdiv_nan_l (a : float64) : (NaN / a)%f64 = NaN.
Proof. destruct a; reflexivity. Qed.


Lemma fadd_nan_r (a : float64) : (a + NaN)%f64 = NaN.
Proof. destruct a; reflexivity. Qed.

Lemma fmul_nan_r (a : float64) : (a * NaN)%f64 = NaN.
Proof. destruct a; reflexivity. Qed.

Lemma fmul_nan_l (a : float64) : (NaN * a)%f64 = NaN.
Proof. destruct a; reflexivity. Qed.

(** A zero dividend term leaves the theta of the FX model. *)
Lemma zero_dividend_term (S : R) (d1 : float64) (pdf_part rest : float64) :
  (stats_norm_pdf d1 = NaN -> pdf_part = NaN) ->
  (pdf_part - rest + Fin (0 * S) * stats_norm_cdf d1)%f64
  = (pdf_part - rest)%f64
  /\ (pdf_part + rest - Fin (0 * S) * stats_norm_cdf (- d1))%f64
     = (pdf_part + rest)%f64.
Proof.
  intros Hnan.
  destruct d1 as [x | | | ]; cbn [stats_norm_cdf stats_norm_pdf fneg fmul].
  - replace (0 * S * norm_cdf x) with 0 by ring.
    replace (0 * S * norm_cdf (- x)) with 0 by ring.
    now rewrite fadd_0_r, fsub_0_r.
  - replace (0 * S * 1) with 0 by ring.
    replace (0 * S * 0) with 0 by ring.
    now rewrite fadd_0_r, fsub_0_r.
  - replace (0 * S * 1) with 0 by ring.
    replace (0 * S * 0) with 0 by ring.
    now rewrite fadd_0_r, fsub_0_r.
  - rewrite (Hnan eq_refl), ?fmul_nan_r.
    unfold fsub. cbn [fneg]. now rewrite !fadd_nan_r, !fadd_nan_l.
Qed.

Lemma theta_pdf_part_nan (S sigma : R) (d1 den : float64) :
  stats_norm_pdf d1 = NaN ->
  (- (Fin S * stats_norm_pdf d1 * Fin sigma) / den)%f64 = NaN.
Proof.
  intros ->. now rewrite fmul_nan_r, fmul_nan_l, fdiv_nan_l.
Qed.

Ltac equity_of_fx_fields :=
  cbn [Equity.of_fx Equity.spot Equity.strike Equity.interest_rate
       Equity.dividend_yield Equity.implied_vol Equity.expiry
       Equity.option_type].

(** C10.  On every FX leg, each of the six operations gives what the equity
    model gives on the leg with the same strike, expiry, option_type,
    implied_vol, spot and interest_rate and dividend_yield = 0: the same
    number, the same [None], the same exception. *)
Theorem fx_is_equity_without_dividend (o : FX.Option) :
  Equity.black_scholes_merton (Equity.of_fx o) = FX.black_scholes o
  /\ Equity.delta (Equity.of_fx o) = FX.delta o
  /\ Equity.gamma (Equity.of_fx o) = FX.gamma o
  /\ Equity.vega (Equity.of_fx o) = FX.vega o
  /\ Equity.theta (Equity.of_fx o) = FX.theta o
  /\ Equity.rho (Equity.of_fx o) = FX.rho o.
Proof.
  unfold Equity.black_scholes_merton, Equity.delta, Equity.gamma, Equity.vega,
    Equity.theta, Equity.rho, FX.black_scholes, FX.delta, FX.gamma, FX.vega,
    FX.theta, FX.rho.
  rewrite equity_of_fx_d1_d2.
  destruct (FX.d1_d2 o) as [[d1 d2] | e]; [ | repeat split; reflexivity].
  cbn [bind fst snd]. equity_of_fx_fields. rewrite !np_exp_0.
  pose proof (zero_dividend_term (FX.spot o) d1) as Hzero.
  pose proof (theta_pdf_part_nan (FX.spot o) (FX.implied_vol o) d1
                (Fin 2 * np_sqrt (FX.expiry o))%f64) as Hnan.
  destruct (FX.option_type o =? "call")%string;
    [ | destruct (FX.option_type o =? "put")%string];
    cbn [bind]; rewrite ?fmul_fin_1, ?fmul_1_l, ?fmul_1_r;
    repeat split; try reflexivity.
  - now rewrite (proj1 (Hzero _ _ Hnan)).
  - now rewrite (proj2 (Hzero _ _ Hnan)).
Qed.

(** ** The volatilities of [main] in Equity.py *)

Lemma main_vols_mean : Spec.population_mean (dict_values Equity.main_implied_vols) = 0.18.
Proof. unfold Spec.population_mean. cbn. lra. Qed.

(** The strike 100 carries the mean volatility: its z-score is 0. *)
Example z_score_at_the_mean :
  z_score Z.eq_dec str_of_strike Equity.main_implied_vols 100%Z
  = Returns (NpFloat (Fin 0)).
Proof.
  unfold z_score, np_mean, np_std.
  change (dict_get Z.eq_dec Equity.main_implied_vols 100%Z) with (Some 0.18).
  change (dict_values Equity.main_implied_vols) with [0.2; 0.18; 0.16].
  rewrite std_is_population_std, mean_is_population_mean.
  change [0.2; 0.18; 0.16] with (dict_values Equity.main_implied_vols).
  rewrite main_vols_mean. cbn [fsub fneg fadd].
  rewrite fdiv_fin by exact main_vols_std_nonzero.
  do 3 f_equal. unfold Rdiv. replace (0.18 + - 0.18) with 0 by lra. ring.
Qed.

(** * More of the code: the Greeks, degenerate legs, aggregates *)

(** ** A zero strike *)

(** X1.  With a zero strike every operation of either model raises
    ZeroDivisionError, from [spot / strike] in [d1_d2], whatever the option
    type: the check of the option type in the price is not reached. *)
Theorem zero_strike_raises (S r q sigma T : R) (ty : string) :
  (FX.black_scholes (FX.mkOption 0 T ty sigma S r) = Raises ZeroDivisionError
   /\ FX.delta (FX.mkOption 0 T ty sigma S r) = Raises ZeroDivisionError
   /\ FX.gamma (FX.mkOption 0 T ty sigma S r) = Raises ZeroDivisionError
   /\ FX.vega (FX.mkOption 0 T ty sigma S r) = Raises ZeroDivisionError
   /\ FX.theta (FX.mkOption 0 T ty sigma S r) = Raises ZeroDivisionError
   /\ FX.rho (FX.mkOption 0 T ty sigma S r) = Raises ZeroDivisionError)
  /\
  (Equity.black_scholes_merton (Equity.mkEquityOption 0 T ty sigma S r q)
   = Raises ZeroDivisionError
   /\ Equity.delta (Equity.mkEquityOption 0 T ty sigma S r q) = Raises ZeroDivisionError
   /\ Equity.gamma (Equity.mkEquityOption 0 T ty sigma S r q) = Raises ZeroDivisionError
   /\ Equity.vega (Equity.mkEquityOption 0 T ty sigma S r q) = Raises ZeroDivisionError
   /\ Equity.theta (Equity.mkEquityOption 0 T ty sigma S r q) = Raises ZeroDivisionError
   /\ Equity.rho (Equity.mkEquityOption 0 T ty sigma S r q) = Raises ZeroDivisionError).
Proof.
  assert (Hfx : FX.d1_d2 (FX.mkOption 0 T ty sigma S r) = Raises ZeroDivisionError).
  { unfold FX.d1_d2. cbn [FX.strike]. now rewrite py_truediv_zero. }
  assert (Heq : Equity.d1_d2 (Equity.mkEquityOption 0 T ty sigma S r q)
                = Raises ZeroDivisionError).
  { unfold Equity.d1_d2. cbn [Equity.strike]. now rewrite py_truediv_zero. }
  unfold FX.black_scholes, FX.delta, FX.gamma, FX.vega, FX.theta, FX.rho,
    Equity.black_scholes_merton, Equity.delta, Equity.gamma, Equity.vega,
    Equity.theta, Equity.rho.
  rewrite Hfx, Heq. repeat split.
Qed.

(** ** The Greeks of a well-formed leg *)

Ltac fin_step :=
  cbn [bind fst snd fmul fneg fadd fsub stats_norm_pdf stats_norm_cdf np_exp
       FX.option_type FX.spot FX.strike FX.expiry FX.implied_vol FX.interest_rate
       Equity.option_type Equity.spot Equity.strike Equity.expiry
       Equity.implied_vol Equity.interest_rate Equity.dividend_yield
       String.eqb Ascii.eqb Bool.eqb].

Ltac fin_eval :=
  fin_step; repeat (rewrite fdiv_fin by lra; fin_step).

Section FXGreeks.

Variables S K r sigma T : R.
Hypothesis HK : 0 < K.
Hypothesis HS : 0 < S.
Hypothesis Hs : 0 < sigma.
Hypothesis HT : 0 < T.

Let d1 : R := Spec.fx_d1 S K r sigma T.
Let d2 : R := Spec.fx_d2 S K r sigma T.

Lemma fx_leg_well_formed (ty : string) :
  FX.well_formed (FX.mkOption K T ty sigma S r).
Proof. repeat split; assumption. Qed.

Lemma fx_delta_call :
  FX.delta (FX.mkOption K T "call" sigma S r) = Returns (NpFloat (Fin (norm_cdf d1))).
Proof.
  unfold FX.delta. rewrite fx_d1_d2_well_formed by apply fx_leg_well_formed.
  fin_step. reflexivity.
Qed.

Lemma fx_delta_put :
  FX.delta (FX.mkOption K T "put" sigma S r)
  = Returns (NpFloat (Fin (norm_cdf d1 - 1))).
Proof.
  unfold FX.delta. rewrite fx_d1_d2_well_formed by apply fx_leg_well_formed.
  fin_step. reflexivity.
Qed.

Lemma fx_theta_call :
  FX.theta (FX.mkOption K T "call" sigma S r)
  = Returns (NpFloat (Fin ((- (S * norm_pdf d1 * sigma) / (2 * sqrt T)
                            - r * K * exp (- r * T) * norm_cdf d2) / 365))).
Proof.
  unfold FX.theta. rewrite fx_d1_d2_well_formed by apply fx_leg_well_formed.
  fin_step. rewrite np_sqrt_nonneg by lra.
  pose proof (sqrt_lt_R0 T HT). fin_eval. reflexivity.
Qed.

Lemma fx_theta_put :
  FX.theta (FX.mkOption K T "put" sigma S r)
  = Returns (NpFloat (Fin ((- (S * norm_pdf d1 * sigma) / (2 * sqrt T)
                            + r * K * exp (- r * T) * norm_cdf (- d2)) / 365))).
Proof.
  unfold FX.theta. rewrite fx_d1_d2_well_formed by apply fx_leg_well_formed.
  fin_step. rewrite np_sqrt_nonneg by lra.
  pose proof (sqrt_lt_R0 T HT). fin_eval. reflexivity.
Qed.

Lemma fx_rho_call :
  FX.rho (FX.mkOption K T "call" sigma S r)
  = Returns (NpFloat (Fin (K * T * exp (- r * T) * norm_cdf d2 / 100))).
Proof.
  unfold FX.rho. rewrite fx_d1_d2_well_formed by apply fx_leg_well_formed.
  fin_eval. reflexivity.
Qed.

Lemma fx_rho_put :
  FX.rho (FX.mkOption K T "put" sigma S r)
  = Returns (NpFloat (Fin (- K * T * exp (- r * T) * norm_cdf (- d2) / 100))).
Proof.
  unfold FX.rho. rewrite fx_d1_d2_well_formed by apply fx_leg_well_formed.
  fin_eval. reflexivity.
Qed.

End FXGreeks.

Section EquityGreeks.

Variables S K r q sigma T : R.
Hypothesis HK : 0 < K.
Hypothesis HS : 0 < S.
Hypothesis Hs : 0 < sigma.
Hypothesis HT : 0 < T.

Let d1 : R := Spec.d1 S K r q sigma T.
Let d2 : R := Spec.d2 S K r q sigma T.

Lemma equity_leg_well_formed (ty : string) :
  Equity.well_formed (Equity.mkEquityOption K T ty sigma S r q).
Proof. repeat split; assumption. Qed.

Lemma equity_delta_call :
  Equity.delta (Equity.mkEquityOption K T "call" sigma S r q)
  = Returns (NpFloat (Fin (exp (- q * T) * norm_cdf d1))).
Proof.
  unfold Equity.delta.
  rewrite equity_d1_d2_well_formed by apply equity_leg_well_formed.
  fin_step. reflexivity.
Qed.

Lemma equity_delta_put :
  Equity.delta (Equity.mkEquityOption K T "put" sigma S r q)
  = Returns (NpFloat (Fin (exp (- q * T) * (norm_cdf d1 - 1)))).
Proof.
  unfold Equity.delta.
  rewrite equity_d1_d2_well_formed by apply equity_leg_well_formed.
  fin_step. reflexivity.
Qed.

Lemma equity_theta_call :
  Equity.theta (Equity.mkEquityOption K T "call" sigma S r q)
  = Returns (NpFloat (Fin ((- (S * norm_pdf d1 * sigma * exp (- q * T)) / (2 * sqrt T)
                            - r * K * exp (- r * T) * norm_cdf d2
                            + q * S * exp (- q * T) * norm_cdf d1) / 365))).
Proof.
  unfold Equity.theta.
  rewrite equity_d1_d2_well_formed by apply equity_leg_well_formed.
  fin_step. rewrite np_sqrt_nonneg by lra.
  pose proof (sqrt_lt_R0 T HT). fin_eval. reflexivity.
Qed.

Lemma equity_theta_put :
  Equity.theta (Equity.mkEquityOption K T "put" sigma S r q)
  = Returns (NpFloat (Fin ((- (S * norm_pdf d1 * sigma * exp (- q * T)) / (2 * sqrt T)
                            + r * K * exp (- r * T) * norm_cdf (- d2)
                            - q * S * exp (- q * T) * norm_cdf (- d1)) / 365))).
Proof.
  unfold Equity.theta.
  rewrite equity_d1_d2_well_formed by apply equity_leg_well_formed.
  fin_step. rewrite np_sqrt_nonneg by lra.
  pose proof (sqrt_lt_R0 T HT). fin_eval. reflexivity.
Qed.

Lemma equity_rho_call :
  Equity.rho (Equity.mkEquityOption K T "call" sigma S r q)
  = Returns (NpFloat (Fin (K * T * exp (- r * T) * norm_cdf d2 / 100))).
Proof.
  unfold Equity.rho.
  rewrite equity_d1_d2_well_formed by apply equity_leg_well_formed.
  fin_eval. reflexivity.
Qed.

Lemma equity_rho_put :
  Equity.rho (Equity.mkEquityOption K T "put" sigma S r q)
  = Returns (NpFloat (Fin (- K * T * exp (- r * T) * norm_cdf (- d2) / 100))).
Proof.
  unfold Equity.rho.
  rewrite equity_d1_d2_well_formed by apply equity_leg_well_formed.
  fin_eval. reflexivity.
Qed.

End EquityGreeks.



(** ** Relations between the call and the put, and between the Greeks *)

(** X3.  Delta parity: for a call and a put with the same (positive)
    strike, expiry, implied_vol and spot and the same rates, the call delta
    minus the put delta is 1 in the FX model and e^(-qT) in the equity
    model. *)
Theorem delta_parity (S K r q sigma T : R) :
  0 < K -> 0 < S -> 0 < sigma -> 0 < T ->
  (exists c p : R,
      FX.delta (FX.mkOption K T "call" sigma S r) = Returns (NpFloat (Fin c))
      /\ FX.delta (FX.mkOption K T "put" sigma S r) = Returns (NpFloat (Fin p))
      /\ c - p = 1)
  /\
  (exists c p : R,
      Equity.delta (Equity.mkEquityOption K T "call" sigma S r q)
      = Returns (NpFloat (Fin c))
      /\ Equity.delta (Equity.mkEquityOption K T "put" sigma S r q)
         = Returns (NpFloat (Fin p))
      /\ c - p = exp (- (q * T))).
Proof.
  intros HK HS Hs HT. split; do 2 eexists.
  - split; [now apply fx_delta_call | split; [now apply fx_delta_put | ring]].
  - split; [now apply equity_delta_call | split; [now apply equity_delta_put | ]].
    rewrite Ropp_mult_exp. ring.
Qed.

Lemma delta_parity_witness :
  exists c p : R,
    Equity.delta (Equity.mkEquityOption 100 1 "call" 0.18 100 0.02 0.03)
    = Returns (NpFloat (Fin c))
    /\ Equity.delta (Equity.mkEquityOption 100 1 "put" 0.18 100 0.02 0.03)
       = Returns (NpFloat (Fin p))
    /\ c - p = exp (- (0.03 * 1)).
Proof.
  apply (delta_parity 100 100 0.02 0.03 0.18 1); lra.
Defined.

(** X4.  Rho parity: under the same conditions the call rho minus the put
    rho is K T e^(-rT) / 100, in both models. *)
Theorem rho_parity (S K r q sigma T : R) :
  0 < K -> 0 < S -> 0 < sigma -> 0 < T ->
  (exists c p : R,
      FX.rho (FX.mkOption K T "call" sigma S r) = Returns (NpFloat (Fin c))
      /\ FX.rho (FX.mkOption K T "put" sigma S r) = Returns (NpFloat (Fin p))
      /\ c - p = K * T * exp (- (r * T)) / 100)
  /\
  (exists c p : R,
      Equity.rho (Equity.mkEquityOption K T "call" sigma S r q)
      = Returns (NpFloat (Fin c))
      /\ Equity.rho (Equity.mkEquityOption K T "put" sigma S r q)
         = Returns (NpFloat (Fin p))
      /\ c - p = K * T * exp (- (r * T)) / 100).
Proof.
  intros HK HS Hs HT. split; do 2 eexists.
  - split; [now apply fx_rho_call | split; [now apply fx_rho_put | ]].
    rewrite norm_cdf_reflect, Ropp_mult_exp. field.
  - split; [now apply equity_rho_call | split; [now apply equity_rho_put | ]].
    rewrite norm_cdf_reflect, Ropp_mult_exp. field.
Qed.

Lemma rho_parity_witness :
  exists c p : R,
    FX.rho (FX.mkOption 145 0.5 "call" 0.12 145 0.01) = Returns (NpFloat (Fin c))
    /\ FX.rho (FX.mkOption 145 0.5 "put" 0.12 145 0.01) = Returns (NpFloat (Fin p))
    /\ c - p = 145 * 0.5 * exp (- (0.01 * 0.5)) / 100.
Proof.
  apply (rho_parity 145 145 0.01 0 0.12 0.5); lra.
Defined.

(** X5.  Theta parity: under the same conditions the call theta minus the
    put theta is - r K e^(-rT) / 365 in the FX model and
    (q S e^(-qT) - r K e^(-rT)) / 365 in the equity model. *)
Theorem theta_parity (S K r q sigma T : R) :
  0 < K -> 0 < S -> 0 < sigma -> 0 < T ->
  (exists c p : R,
      FX.theta (FX.mkOption K T "call" sigma S r) = Returns (NpFloat (Fin c))
      /\ FX.theta (FX.mkOption K T "put" sigma S r) = Returns (NpFloat (Fin p))
      /\ c - p = - (r * K * exp (- (r * T))) / 365)
  /\
  (exists c p : R,
      Equity.theta (Equity.mkEquityOption K T "call" sigma S r q)
      = Returns (NpFloat (Fin c))
      /\ Equity.theta (Equity.mkEquityOption K T "put" sigma S r q)
         = Returns (NpFloat (Fin p))
      /\ c - p = (q * S * exp (- (q * T)) - r * K * exp (- (r * T))) / 365).
Proof.
  intros HK HS Hs HT. pose proof (sqrt_lt_R0 T HT) as Hq.
  split; do 2 eexists.
  - split; [now apply fx_theta_call | split; [now apply fx_theta_put | ]].
    rewrite norm_cdf_reflect, Ropp_mult_exp. field. lra.
  - split; [now apply equity_theta_call | split; [now apply equity_theta_put | ]].
    rewrite !norm_cdf_reflect, !Ropp_mult_exp. field. lra.
Qed.

Lemma theta_parity_witness :
  exists c p : R,
    FX.theta (FX.mkOption 145 0.5 "call" 0.12 145 0.01) = Returns (NpFloat (Fin c))
    /\ FX.theta (FX.mkOption 145 0.5 "put" 0.12 145 0.01) = Returns (NpFloat (Fin p))
    /\ c - p = - (0.01 * 145 * exp (- (0.01 * 0.5))) / 365.
Proof.
  apply (theta_parity 145 145 0.01 0 0.12 0.5); lra.
Defined.

(** X6.  Vega and gamma of one leg: 100 vega = gamma S^2 sigma T in the FX
    model and 100 vega = gamma S^2 sigma T e^(-qT) in the equity model (whose
    gamma carries no dividend discount), whatever the option type. *)
Theorem vega_gamma_relation (S K r q sigma T : R) (ty : string) :
  0 < K -> 0 < S -> 0 < sigma -> 0 < T ->
  (exists g v : R,
      FX.gamma (FX.mkOption K T ty sigma S r) = Returns (NpFloat (Fin g))
      /\ FX.vega (FX.mkOption K T ty sigma S r) = Returns (NpFloat (Fin v))
      /\ 100 * v = g * S ^ 2 * sigma * T)
  /\
  (exists g v : R,
      Equity.gamma (Equity.mkEquityOption K T ty sigma S r q)
      = Returns (NpFloat (Fin g))
      /\ Equity.vega (Equity.mkEquityOption K T ty sigma S r q)
         = Returns (NpFloat (Fin v))
      /\ 100 * v = g * S ^ 2 * sigma * T * exp (- (q * T))).
Proof.
  intros HK HS Hs HT. pose proof (sqrt_lt_R0 T HT) as Hq.
  assert (HTT : T = sqrt T * sqrt T) by (symmetry; apply sqrt_sqrt; lra).
  split; do 2 eexists.
  - split; [apply fx_gamma_well_formed, fx_leg_well_formed; assumption | ].
    split; [apply fx_vega_well_formed, fx_leg_well_formed; assumption | ].
    cbn [FX.spot FX.strike FX.interest_rate FX.implied_vol FX.expiry].
    generalize (norm_pdf (Spec.fx_d1 S K r sigma T)). intros phi.
    generalize dependent (sqrt T). intros s Hq HTT. rewrite HTT.
    field. lra.
  - split; [apply equity_gamma_well_formed, equity_leg_well_formed; assumption | ].
    split; [apply equity_vega_well_formed, equity_leg_well_formed; assumption | ].
    cbn [Equity.spot Equity.strike Equity.interest_rate Equity.implied_vol
         Equity.expiry Equity.dividend_yield].
    rewrite Ropp_mult_exp.
    generalize (norm_pdf (Spec.d1 S K r q sigma T)), (exp (- (q * T))).
    intros phi e.
    generalize dependent (sqrt T). intros s Hq HTT. rewrite HTT.
    field. lra.
Qed.

Lemma vega_gamma_relation_witness :
  exists g v : R,
    FX.gamma (FX.mkOption 143 0.5 "put" 0.15 145 0.01) = Returns (NpFloat (Fin g))
    /\ FX.vega (FX.mkOption 143 0.5 "put" 0.15 145 0.01) = Returns (NpFloat (Fin v))
    /\ 100 * v = g * 145 ^ 2 * 0.15 * 0.5.
Proof.
  apply (vega_gamma_relation 145 143 0.01 0 0.15 0.5 "put"); lra.
Defined.

(** ** The distribution function increases *)





Lemma norm_cdf_0 : norm_cdf 0 = 1 / 2.
Proof.
  unfold norm_cdf. rewrite RiemannInt_P9. ring.
Qed.

(** ** Delta and the spot *)




(** ** Degenerate legs: zero expiry, zero volatility, negative expiry *)

Lemma signed_inf_pos (x : R) : 0 < x -> signed_inf x = PInf.
Proof.
  intros Hx. unfold signed_inf. destruct (Rlt_dec 0 x); [reflexivity | contradiction].
Qed.

Lemma signed_inf_neg (x : R) : x < 0 -> signed_inf x = NInf.
Proof.
  intros Hx. unfold signed_inf. destruct (Rlt_dec 0 x); [lra | ].
  destruct (Rlt_dec x 0); [reflexivity | contradiction].
Qed.

Lemma signed_inf_zero (x : R) : x = 0 -> signed_inf x = NaN.
Proof.
  intros ->. unfold signed_inf. destruct (Rlt_dec 0 0); [lra | reflexivity].
Qed.

Lemma fdiv_fin_zero (x y : R) : y = 0 -> (Fin x / Fin y)%f64 = signed_inf x.
Proof.
  intros ->. cbn [fdiv]. destruct (Req_dec_T 0 0) as [_ | H]; [reflexivity | now elim H].
Qed.

Lemma signed_inf_minus_fin (x y : R) : (signed_inf x - Fin y)%f64 = signed_inf x.
Proof.
  unfold signed_inf. destruct (Rlt_dec 0 x); [reflexivity | ].
  destruct (Rlt_dec x 0); reflexivity.
Qed.

(** When implied_vol * sqrt(expiry) is zero, d1 and d2 are both the infinity
    that has the sign of the numerator of d1, or not-a-number. *)
Lemma fx_d1_d2_degenerate (o : FX.Option) :
  0 < FX.strike o -> 0 < FX.spot o -> 0 <= FX.expiry o ->
  FX.implied_vol o * sqrt (FX.expiry o) = 0 ->
  FX.d1_d2 o =
  Returns (signed_inf (ln (FX.spot o / FX.strike o)
                       + (FX.interest_rate o + 0.5 * FX.implied_vol o ^ 2)
                         * FX.expiry o),
           signed_inf (ln (FX.spot o / FX.strike o)
                       + (FX.interest_rate o + 0.5 * FX.implied_vol o ^ 2)
                         * FX.expiry o)).
Proof.
  intros HK HS HT Hden. unfold FX.d1_d2.
  rewrite py_truediv_nonzero by lra. cbn [bind].
  rewrite np_log_pos by (now apply Rdiv_lt_0_compat).
  rewrite np_sqrt_nonneg by exact HT.
  cbn [fadd fmul]. rewrite fdiv_fin_zero by exact Hden.
  now rewrite signed_inf_minus_fin.
Qed.

Lemma equity_d1_d2_degenerate (o : Equity.EquityOption) :
  0 < Equity.strike o -> 0 < Equity.spot o -> 0 <= Equity.expiry o ->
  Equity.implied_vol o * sqrt (Equity.expiry o) = 0 ->
  Equity.d1_d2 o =
  Returns (signed_inf (ln (Equity.spot o / Equity.strike o)
                       + (Equity.interest_rate o - Equity.dividend_yield o
                          + 0.5 * Equity.implied_vol o ^ 2) * Equity.expiry o),
           signed_inf (ln (Equity.spot o / Equity.strike o)
                       + (Equity.interest_rate o - Equity.dividend_yield o
                          + 0.5 * Equity.implied_vol o ^ 2) * Equity.expiry o)).
Proof.
  intros HK HS HT Hden. unfold Equity.d1_d2.
  rewrite py_truediv_nonzero by lra. cbn [bind].
  rewrite np_log_pos by (now apply Rdiv_lt_0_compat).
  rewrite np_sqrt_nonneg by exact HT.
  cbn [fadd fmul]. rewrite fdiv_fin_zero by exact Hden.
  now rewrite signed_inf_minus_fin.
Qed.

Lemma ln_ratio_sign (S K : R) :
  0 < K -> 0 < S ->
  (K < S -> 0 < ln (S / K)) /\ (S < K -> ln (S / K) < 0) /\ (S = K -> ln (S / K) = 0).
Proof.
  intros HK HS. repeat split; intros H.
  - rewrite <- ln_1. apply ln_increasing; [lra | ].
    apply (Rmult_lt_reg_r K); [exact HK | ]. unfold Rdiv.
    rewrite Rmult_assoc, Rinv_l by lra. lra.
  - rewrite <- ln_1. apply ln_increasing; [now apply Rdiv_lt_0_compat | ].
    apply (Rmult_lt_reg_r K); [exact HK | ]. unfold Rdiv.
    rewrite Rmult_assoc, Rinv_l by lra. lra.
  - subst S. unfold Rdiv. rewrite Rinv_r by lra. apply ln_1.
Qed.

Ltac at_expiry_eval Hd :=
  rewrite Hd;
  cbn [bind fst snd FX.option_type FX.spot FX.strike FX.expiry FX.implied_vol
       FX.interest_rate Equity.option_type Equity.spot Equity.strike
       Equity.expiry Equity.implied_vol Equity.interest_rate
       Equity.dividend_yield String.eqb Ascii.eqb Bool.eqb];
  rewrite ?signed_inf_pos, ?signed_inf_neg, ?signed_inf_zero by lra;
  cbn [fmul fneg fadd fsub stats_norm_cdf np_exp].

(** X8.  A leg with expiry = 0 is not rejected, and its price is the payoff:
    with positive strike, spot and implied_vol, a call returns spot - strike
    and a put 0 when strike < spot, a call returns 0 and a put strike - spot
    when spot < strike; at spot = strike both return not-a-number.  The same
    in both models. *)
Theorem price_at_expiry (S K r q sigma : R) :
  0 < K -> 0 < S -> 0 < sigma ->
  (K < S ->
   FX.black_scholes (FX.mkOption K 0 "call" sigma S r) = Returns (NpFloat (Fin (S - K)))
   /\ FX.black_scholes (FX.mkOption K 0 "put" sigma S r) = Returns (NpFloat (Fin 0))
   /\ Equity.black_scholes_merton (Equity.mkEquityOption K 0 "call" sigma S r q)
      = Returns (NpFloat (Fin (S - K)))
   /\ Equity.black_scholes_merton (Equity.mkEquityOption K 0 "put" sigma S r q)
      = Returns (NpFloat (Fin 0)))
  /\
  (S < K ->
   FX.black_scholes (FX.mkOption K 0 "call" sigma S r) = Returns (NpFloat (Fin 0))
   /\ FX.black_scholes (FX.mkOption K 0 "put" sigma S r) = Returns (NpFloat (Fin (K - S)))
   /\ Equity.black_scholes_merton (Equity.mkEquityOption K 0 "call" sigma S r q)
      = Returns (NpFloat (Fin 0))
   /\ Equity.black_scholes_merton (Equity.mkEquityOption K 0 "put" sigma S r q)
      = Returns (NpFloat (Fin (K - S))))
  /\
  (S = K ->
   FX.black_scholes (FX.mkOption K 0 "call" sigma S r) = Returns (NpFloat NaN)
   /\ FX.black_scholes (FX.mkOption K 0 "put" sigma S r) = Returns (NpFloat NaN)
   /\ Equity.black_scholes_merton (Equity.mkEquityOption K 0 "call" sigma S r q)
      = Returns (NpFloat NaN)
   /\ Equity.black_scholes_merton (Equity.mkEquityOption K 0 "put" sigma S r q)
      = Returns (NpFloat NaN)).
Proof.
  intros HK HS Hs.
  destruct (ln_ratio_sign S K HK HS) as (Hgt & Hlt & Heq).
  assert (Hfx : forall ty, FX.d1_d2 (FX.mkOption K 0 ty sigma S r)
                = Returns (signed_inf (ln (S / K) + (r + 0.5 * sigma ^ 2) * 0),
                           signed_inf (ln (S / K) + (r + 0.5 * sigma ^ 2) * 0))).
  { intros ty. apply (fx_d1_d2_degenerate (FX.mkOption K 0 ty sigma S r));
      cbn; try lra. rewrite sqrt_0. ring. }
  assert (Heqt : forall ty, Equity.d1_d2 (Equity.mkEquityOption K 0 ty sigma S r q)
                = Returns (signed_inf (ln (S / K) + (r - q + 0.5 * sigma ^ 2) * 0),
                           signed_inf (ln (S / K) + (r - q + 0.5 * sigma ^ 2) * 0))).
  { intros ty. apply (equity_d1_d2_degenerate (Equity.mkEquityOption K 0 ty sigma S r q));
      cbn; try lra. rewrite sqrt_0. ring. }
  assert (He : forall x, exp (- x * 0) = 1)
    by (intros x; replace (- x * 0) with 0 by ring; apply exp_0).
  unfold FX.black_scholes, Equity.black_scholes_merton.
  split; [ | split]; intros H;
    [specialize (Hgt H) | specialize (Hlt H) | specialize (Heq H)];
    repeat split;
    first [at_expiry_eval Hfx | at_expiry_eval Heqt];
    try reflexivity; rewrite !He; do 3 f_equal; ring.
Qed.

Lemma price_at_expiry_witness :
  FX.black_scholes (FX.mkOption 100 0 "call" 0.2 110 0.01) = Returns (NpFloat (Fin (110 - 100)))
  /\ FX.black_scholes (FX.mkOption 100 0 "put" 0.2 110 0.01) = Returns (NpFloat (Fin 0))
  /\ Equity.black_scholes_merton (Equity.mkEquityOption 100 0 "call" 0.2 110 0.01 0.03)
     = Returns (NpFloat (Fin (110 - 100)))
  /\ Equity.black_scholes_merton (Equity.mkEquityOption 100 0 "put" 0.2 110 0.01 0.03)
     = Returns (NpFloat (Fin 0)).
Proof.
  apply (proj1 (price_at_expiry 110 100 0.01 0.03 0.2 ltac:(lra) ltac:(lra) ltac:(lra))).
  lra.
Defined.









Lemma ln_ratio (S K : R) : 0 < K -> 0 < S -> ln (S / K) = ln S - ln K.
Proof.
  intros HK HS. unfold Rdiv.
  rewrite ln_mult by (try apply Rinv_0_lt_compat; assumption).
  rewrite ln_Rinv by exact HK. ring.
Qed.

(** The sign of ln(S/K) + (b - a) is the sign of S e^b - K e^a. *)
Lemma forward_sign (S K a b : R) :
  0 < K -> 0 < S ->
  (K * exp a < S * exp b -> 0 < ln (S / K) + (b - a))
  /\ (S * exp b < K * exp a -> ln (S / K) + (b - a) < 0)
  /\ (S * exp b = K * exp a -> ln (S / K) + (b - a) = 0).
Proof.
  intros HK HS. rewrite ln_ratio by assumption.
  pose proof (exp_pos a) as Ha. pose proof (exp_pos b) as Hb.
  assert (HKa : 0 < K * exp a) by (now apply Rmult_lt_0_compat).
  assert (HSb : 0 < S * exp b) by (now apply Rmult_lt_0_compat).
  assert (EK : ln (K * exp a) = ln K + a) by (rewrite ln_mult, ln_exp; trivial).
  assert (ES : ln (S * exp b) = ln S + b) by (rewrite ln_mult, ln_exp; trivial).
  repeat split; intros H.
  - pose proof (ln_increasing _ _ HKa H). lra.
  - pose proof (ln_increasing _ _ HSb H). lra.
  - rewrite H in ES. lra.
Qed.

(** X10.  A zero implied_vol is not rejected: with positive strike, spot and
    expiry, the FX price of a call is spot - strike e^(-rT) and that of a put
    is 0 when strike e^(-rT) < spot, the call is 0 and the put is
    strike e^(-rT) - spot when spot < strike e^(-rT), and both are
    not-a-number when the two are equal. *)
Theorem price_at_zero_volatility (S K r T : R) :
  0 < K -> 0 < S -> 0 < T ->
  (K * exp (- (r * T)) < S ->
   FX.black_scholes (FX.mkOption K T "call" 0 S r)
   = Returns (NpFloat (Fin (S - K * exp (- (r * T)))))
   /\ FX.black_scholes (FX.mkOption K T "put" 0 S r) = Returns (NpFloat (Fin 0)))
  /\
  (S < K * exp (- (r * T)) ->
   FX.black_scholes (FX.mkOption K T "call" 0 S r) = Returns (NpFloat (Fin 0))
   /\ FX.black_scholes (FX.mkOption K T "put" 0 S r)
      = Returns (NpFloat (Fin (K * exp (- (r * T)) - S))))
  /\
  (S = K * exp (- (r * T)) ->
   FX.black_scholes (FX.mkOption K T "call" 0 S r) = Returns (NpFloat NaN)
   /\ FX.black_scholes (FX.mkOption K T "put" 0 S r) = Returns (NpFloat NaN)).
Proof.
  intros HK HS HT.
  destruct (forward_sign S K (- (r * T)) 0 HK HS) as (Hgt & Hlt & Heq).
  rewrite exp_0, Rmult_1_r in Hgt, Hlt, Heq.
  assert (Hn : ln (S / K) + (r + 0.5 * 0 ^ 2) * T = ln (S / K) + (0 - - (r * T)))
    by ring.
  assert (Hfx : forall ty, FX.d1_d2 (FX.mkOption K T ty 0 S r)
                = Returns (signed_inf (ln (S / K) + (0 - - (r * T))),
                           signed_inf (ln (S / K) + (0 - - (r * T))))).
  { intros ty. rewrite <- Hn.
    apply (fx_d1_d2_degenerate (FX.mkOption K T ty 0 S r)); cbn; try lra. }
  unfold FX.black_scholes.
  split; [ | split]; intros H;
    [specialize (Hgt H) | specialize (Hlt H) | specialize (Heq H)];
    split; at_expiry_eval Hfx; try reflexivity;
    rewrite !Ropp_mult_exp; do 3 f_equal; ring.
Qed.

Lemma price_at_zero_volatility_witness :
  FX.black_scholes (FX.mkOption 100 1 "call" 0 100 0.05)
  = Returns (NpFloat (Fin (100 - 100 * exp (- (0.05 * 1)))))
  /\ FX.black_scholes (FX.mkOption 100 1 "put" 0 100 0.05) = Returns (NpFloat (Fin 0)).
Proof.
  apply (proj1 (price_at_zero_volatility 100 100 0.05 1
                  ltac:(lra) ltac:(lra) ltac:(lra))).
  assert (exp (- (0.05 * 1)) < 1).
  { apply Rlt_le_trans with (exp 0); [apply exp_increasing; lra | ].
    rewrite exp_0. apply Rle_refl. }
  lra.
Defined.

(** ** More on the z-score *)

Lemma mean_singleton (v : R) : mean [v] = v.
Proof. unfold mean, total. cbn. field. Qed.

(** X11.  On a mapping with a single entry the standard deviation is zero and
    the z-score of its strike is not-a-number: [z_score] returns it and does
    not raise. *)
Theorem z_score_single_entry {K : Type}
        (K_eq_dec : forall a b : K, {a = b} + {a <> b}) (str : K -> string)
        (k : K) (v : R) :
  z_score K_eq_dec str [(k, v)] k = Returns (NpFloat NaN).
Proof.
  unfold z_score. cbn [dict_get dict_values map snd np_mean np_std].
  destruct (K_eq_dec k k) as [_ | Hne]; [ | now elim Hne].
  rewrite !mean_singleton. cbn [fsub fneg fadd].
  rewrite fdiv_fin_zero.
  - apply f_equal, f_equal, signed_inf_zero. ring.
  - replace (v - v) with 0 by ring. rewrite Rabs_R0.
    replace (0 ^ 2) with 0 by ring. apply sqrt_0.
Qed.

Lemma z_score_value {K : Type}
      (K_eq_dec : forall a b : K, {a = b} + {a <> b}) (str : K -> string)
      (d : list (K * R)) (k : K) (v : R) :
  dict_get K_eq_dec d k = Some v ->
  Spec.population_std (dict_values d) <> 0 ->
  z_score K_eq_dec str d k
  = Returns (NpFloat (Fin ((v - Spec.population_mean (dict_values d))
                           / Spec.population_std (dict_values d)))).
Proof.
  intros Hget Hstd. unfold z_score. rewrite Hget.
  pose proof (dict_get_some_values K_eq_dec _ _ _ Hget) as Hne.
  unfold np_mean, np_std.
  destruct (dict_values d) as [ | x l] eqn:Hvals; [now elim Hne | ].
  rewrite std_is_population_std, mean_is_population_mean.
  cbn [fsub fneg fadd]. rewrite fdiv_fin by exact Hstd. reflexivity.
Qed.

Lemma dict_get_of_item {K : Type}
      (K_eq_dec : forall a b : K, {a = b} + {a <> b})
      (d : list (K * R)) (k : K) (v : R) :
  NoDup (map fst d) -> In (k, v) d -> dict_get K_eq_dec d k = Some v.
Proof.
  induction d as [ | [k' v'] d IH]; intros Hnd Hin; [contradiction | ].
  cbn [map fst] in Hnd. inversion Hnd as [ | ? ? Hnotin Hnd']; subst.
  cbn [dict_get]. destruct (K_eq_dec k' k) as [-> | Hne].
  - destruct Hin as [[= ->] | Hin]; [reflexivity | ].
    elim Hnotin. change k with (fst (k, v)). now apply in_map.
  - destruct Hin as [[= -> _] | Hin]; [now elim Hne | ].
    now apply IH.
Qed.

Lemma Forall2_map_in {A B : Type} (P : A -> B -> Prop) (f : A -> B) (l : list A) :
  (forall x, In x l -> P x (f x)) -> Forall2 P l (map f l).
Proof.
  induction l as [ | x l IH]; intros H; constructor.
  - apply H. now left.
  - apply IH. intros y Hy. apply H. now right.
Qed.

Lemma total_standardised (m s : R) (vs : list R) :
  total (map (fun v => (v - m) / s) vs) = (total vs - INR (length vs) * m) / s.
Proof.
  induction vs as [ | v vs IH].
  - cbn. unfold Rdiv. ring.
  - change (total (map (fun v => (v - m) / s) (v :: vs)))
      with ((v - m) / s + total (map (fun v => (v - m) / s) vs)).
    change (total (v :: vs)) with (v + total vs).
    change (length (v :: vs)) with (Datatypes.S (length vs)).
    rewrite IH, S_INR. unfold Rdiv. ring.
Qed.

Lemma total_squares_standardised (m s : R) (vs : list R) :
  total (map (fun v => ((v - m) / s) ^ 2) vs)
  = total (map (fun v => (v - m) ^ 2) vs) / s ^ 2.
Proof.
  induction vs as [ | v vs IH].
  - cbn. unfold Rdiv. ring.
  - change (total (map (fun v => ((v - m) / s) ^ 2) (v :: vs)))
      with (((v - m) / s) ^ 2 + total (map (fun v => ((v - m) / s) ^ 2) vs)).
    change (total (map (fun v => (v - m) ^ 2) (v :: vs)))
      with ((v - m) ^ 2 + total (map (fun v => (v - m) ^ 2) vs)).
    rewrite IH. unfold Rdiv. rewrite Rpow_mult_distr, pow_inv. ring.
Qed.

Lemma total_squares_nonneg (m : R) (vs : list R) :
  0 <= total (map (fun v => (v - m) ^ 2) vs).
Proof.
  induction vs as [ | v vs IH]; [apply Rle_refl | ].
  change (0 <= (v - m) ^ 2 + total (map (fun v => (v - m) ^ 2) vs)).
  pose proof (pow2_ge_0 (v - m)). lra.
Qed.

(** X12.  The z-scores of a mapping are standardised: when the keys are
    distinct and the population standard deviation of the values is not
    zero, [z_score] returns a finite number at every key of the mapping, these
    numbers add up to 0 and their squares add up to the number of entries. *)
Theorem z_scores_are_standardised {K : Type}
        (K_eq_dec : forall a b : K, {a = b} + {a <> b}) (str : K -> string)
        (implied_vols : list (K * R)) :
  NoDup (map fst implied_vols) ->
  Spec.population_std (dict_values implied_vols) <> 0 ->
  exists zs : list R,
    Forall2 (fun item z =>
               z_score K_eq_dec str implied_vols (fst item)
               = Returns (NpFloat (Fin z)))
            implied_vols zs
    /\ fold_right Rplus 0 zs = 0
    /\ fold_right Rplus 0 (map (fun z => z ^ 2) zs) = INR (length implied_vols).
Proof.
  intros Hnd Hstd.
  set (vs := dict_values implied_vols) in *.
  set (m := Spec.population_mean vs). set (s := Spec.population_std vs) in *.
  exists (map (fun v => (v - m) / s) vs).
  assert (Hlen : length vs = length implied_vols) by apply length_map.
  assert (Hpos : implied_vols <> [] -> INR (length vs) <> 0).
  { intros Hne. rewrite Hlen. destruct implied_vols; [now elim Hne | ].
    apply not_0_INR. discriminate. }
  split; [ | split].
  - unfold vs, dict_values. rewrite map_map.
    assert (Hall : forall item, In item implied_vols ->
                     z_score K_eq_dec str implied_vols (fst item)
                     = Returns (NpFloat (Fin ((snd item - m) / s)))).
    { intros [k v] Hin. apply z_score_value; [ | exact Hstd].
      now apply dict_get_of_item. }
    apply Forall2_map_in, Hall.
  - change (total (map (fun v => (v - m) / s) vs) = 0).
    rewrite total_standardised.
    destruct implied_vols as [ | item l] eqn:Hd.
    + cbn. unfold Rdiv. ring.
    + unfold m, Spec.population_mean. fold (total vs).
      replace (total vs - INR (length vs) * (total vs / INR (length vs))) with 0.
      * unfold Rdiv. ring.
      * field. apply Hpos. discriminate.
  - rewrite map_map.
    change (total (map (fun v => ((v - m) / s) ^ 2) vs) = INR (length implied_vols)).
    rewrite total_squares_standardised, <- Hlen.
    assert (Hs2 : s ^ 2 = total (map (fun v => (v - m) ^ 2) vs) / INR (length vs)).
    { unfold s, Spec.population_std. fold m. fold (total (map (fun x => (x - m) ^ 2) vs)).
      rewrite <- Rsqr_pow2. apply Rsqr_sqrt.
      destruct implied_vols as [ | item l] eqn:Hd.
      - cbn. unfold Rdiv. rewrite Rmult_0_l. apply Rle_refl.
      - apply Rmult_le_pos; [apply total_squares_nonneg | ].
        apply Rlt_le, Rinv_0_lt_compat. rewrite Hlen. apply lt_0_INR. cbn. apply Nat.lt_0_succ. }
    assert (Hs0 : s ^ 2 <> 0) by (apply pow_nonzero; exact Hstd).
    destruct implied_vols as [ | item l] eqn:Hd.
    + exfalso. apply Hstd. unfold s, Spec.population_std. cbn.
      unfold Rdiv. rewrite Rmult_0_l. apply sqrt_0.
    + assert (HN : INR (length vs) <> 0) by (apply Hpos; discriminate).
      apply (Rmult_eq_reg_r (s ^ 2)); [ | exact Hs0].
      unfold Rdiv at 1. rewrite Rmult_assoc, Rinv_l by exact Hs0.
      rewrite Hs2. field. exact HN.
Qed.

Lemma main_vols_keys_distinct : NoDup (map fst Equity.main_implied_vols).
Proof.
  cbn. repeat constructor; cbn; intros H;
    repeat (destruct H as [H | H]; [discriminate H | ]); exact H.
Qed.

Lemma z_scores_are_standardised_witness :
  exists zs : list R,
    Forall2 (fun item z =>
               z_score Z.eq_dec str_of_strike Equity.main_implied_vols (fst item)
               = Returns (NpFloat (Fin z)))
            Equity.main_implied_vols zs
    /\ fold_right Rplus 0 zs = 0
    /\ fold_right Rplus 0 (map (fun z => z ^ 2) zs)
       = INR (length Equity.main_implied_vols).
Proof.
  apply (z_scores_are_standardised Z.eq_dec str_of_strike Equity.main_implied_vols
           main_vols_keys_distinct main_vols_std_nonzero).
Defined.

(** ** More on strategies *)

Lemma fx_unrecognised_type (o : FX.Option) :
  FX.option_type o <> "call"%string -> FX.option_type o <> "put"%string ->
  FX.strike o <> 0 ->
  FX.black_scholes o = Raises bad_type /\ FX.delta o = Returns PyNone.
Proof.
  intros Hc Hp HK.
  destruct (eqb_call_put _ Hc Hp) as [Ec Ep].
  destruct (fx_d1_d2_returns o HK) as [d Hd].
  unfold FX.black_scholes, FX.delta. rewrite Hd. cbn [bind].
  rewrite Ec, Ep. split; reflexivity.
Qed.

Lemma sum_from_first_none (pre post : list (outcome value)) :
  Forall (fun item => exists a, item = Returns (NpFloat a)) pre ->
  forall t : value,
    sum_from t (pre ++ Returns PyNone :: post) = Raises TypeError.
Proof.
  induction 1 as [ | item pre [a ->] _ IH]; intros t.
  - cbn [app sum_from bind]. destruct t; reflexivity.
  - cbn [app sum_from bind].
    destruct t as [x | b | ]; cbn [py_add bind]; [apply IH | apply IH | reflexivity].
Qed.

(** X13.  A leg whose option type is neither 'call' nor 'put' (strike not
    zero) breaks the two aggregates differently: when the legs before it
    return numbers, [strategy_price] raises the leg's ValueError, whereas
    [strategy_delta] raises TypeError, from adding the [None] that the leg's
    [delta] returns. *)
Theorem unrecognised_type_in_strategy (pre post : list FX.Option) (o : FX.Option) :
  FX.option_type o <> "call"%string -> FX.option_type o <> "put"%string ->
  FX.strike o <> 0 ->
  (Forall (fun o' => exists v, FX.black_scholes o' = Returns v) pre ->
   FX.strategy_price (FX.mkStrategy (pre ++ o :: post)) = Raises bad_type)
  /\
  (Forall (fun o' => exists a, FX.delta o' = Returns (NpFloat a)) pre ->
   FX.strategy_delta (FX.mkStrategy (pre ++ o :: post)) = Raises TypeError).
Proof.
  intros Hc Hp HK. destruct (fx_unrecognised_type o Hc Hp HK) as [Hprice Hdelta].
  split; intros Hpre;
    unfold FX.strategy_price, FX.strategy_delta, py_sum; cbn [FX.options];
    rewrite map_app; cbn [map].
  - rewrite Hprice. apply sum_from_first_raise; [ | exact I].
    apply Forall_map_l. revert Hpre. apply Forall_impl. intros o' [v Hv].
    destruct (black_scholes_returns_float o' v Hv) as [a ->]. now exists a.
  - rewrite Hdelta. apply sum_from_first_none, Forall_map_l, Hpre.
Qed.

Lemma unrecognised_type_in_strategy_witness :
  FX.strategy_price
    (FX.mkStrategy ([FX.main_put_option]
                    ++ FX.mkOption 145 0.5 "straddle" 0.12 145 0.01
                    :: [FX.main_call_option]))
  = Raises bad_type
  /\
  FX.strategy_delta
    (FX.mkStrategy ([FX.main_put_option]
                    ++ FX.mkOption 145 0.5 "straddle" 0.12 145 0.01
                    :: [FX.main_call_option]))
  = Raises TypeError.
Proof.
  assert (H := unrecognised_type_in_strategy [FX.main_put_option]
                 [FX.main_call_option]
                 (FX.mkOption 145 0.5 "straddle" 0.12 145 0.01)).
  cbn [FX.option_type FX.strike] in H.
  specialize (H ltac:(discriminate) ltac:(discriminate) ltac:(lra)).
  split.
  - apply (proj1 H). repeat constructor. eexists. exact main_put_option_price.
  - apply (proj2 H). repeat constructor. eexists.
    apply (fx_delta_put 145 143 0.01 0.15 0.5); lra.
Defined.






(** X15.  The delta of a straddle whose put and call share strike, expiry,
    implied_vol, spot and interest_rate (all positive where the data model
    says so) is 2 Phi(d1) - 1; it is zero when the strike is
    spot e^((r + sigma^2/2) T). *)
Theorem straddle_delta (S K r sigma T : R) :
  0 < K -> 0 < S -> 0 < sigma -> 0 < T ->
  exists d : R,
    FX.strategy_delta (FX.Straddle (FX.mkOption K T "put" sigma S r)
                                   (FX.mkOption K T "call" sigma S r))
    = Returns (NpFloat (Fin d))
    /\ d = 2 * norm_cdf (Spec.fx_d1 S K r sigma T) - 1
    /\ (K = S * exp ((r + 0.5 * sigma ^ 2) * T) -> d = 0).
Proof.
  intros HK HS Hs HT.
  exists (0 + (norm_cdf (Spec.fx_d1 S K r sigma T) - 1)
          + norm_cdf (Spec.fx_d1 S K r sigma T)).
  split; [ | split].
  - unfold FX.strategy_delta. cbn [FX.Straddle FX.options map].
    rewrite (fx_delta_put S K r sigma T HK HS Hs HT).
    rewrite (fx_delta_call S K r sigma T HK HS Hs HT).
    reflexivity.
  - ring.
  - intros HKeq.
    assert (Hln : ln (S / K) = - ((r + 0.5 * sigma ^ 2) * T)).
    { rewrite ln_ratio by assumption. rewrite HKeq.
      rewrite ln_mult by (try apply exp_pos; assumption).
      rewrite ln_exp. ring. }
    assert (Hd1 : Spec.fx_d1 S K r sigma T = 0).
    { unfold Spec.fx_d1. rewrite Hln. unfold Rdiv.
      rewrite Rplus_opp_l. apply Rmult_0_l. }
    rewrite Hd1, norm_cdf_0. field.
Qed.

Lemma straddle_delta_witness :
  exists d : R,
    FX.strategy_delta (FX.Straddle (FX.mkOption 145 0.5 "put" 0.12 145 0.01)
                                   (FX.mkOption 145 0.5 "call" 0.12 145 0.01))
    = Returns (NpFloat (Fin d))
    /\ d = 2 * norm_cdf (Spec.fx_d1 145 145 0.01 0.12 0.5) - 1
    /\ (145 = 145 * exp ((0.01 + 0.5 * 0.12 ^ 2) * 0.5) -> d = 0).
Proof.
  apply (straddle_delta 145 145 0.01 0.12 0.5); lra.
Defined.

(** ** Identities between the operations of one leg *)

(** X16.  Price, delta and rho of one leg: on a leg with positive fields and
    the type 'call' or 'put', price = spot * delta - 100 * rho / expiry, in
    both models. *)
Theorem price_delta_rho (S K r q sigma T : R) (ty : string) :
  0 < K -> 0 < S -> 0 < sigma -> 0 < T -> is_call_or_put ty ->
  (exists p d h : R,
      FX.black_scholes (FX.mkOption K T ty sigma S r) = Returns (NpFloat (Fin p))
      /\ FX.delta (FX.mkOption K T ty sigma S r) = Returns (NpFloat (Fin d))
      /\ FX.rho (FX.mkOption K T ty sigma S r) = Returns (NpFloat (Fin h))
      /\ p = S * d - 100 * h / T)
  /\
  (exists p d h : R,
      Equity.black_scholes_merton (Equity.mkEquityOption K T ty sigma S r q)
      = Returns (NpFloat (Fin p))
      /\ Equity.delta (Equity.mkEquityOption K T ty sigma S r q)
         = Returns (NpFloat (Fin d))
      /\ Equity.rho (Equity.mkEquityOption K T ty sigma S r q)
         = Returns (NpFloat (Fin h))
      /\ p = S * d - 100 * h / T).
Proof.
  intros HK HS Hs HT Hty.
  pose proof (fx_leg_well_formed S K r sigma T HK HS Hs HT) as Hfx.
  pose proof (equity_leg_well_formed S K r q sigma T HK HS Hs HT) as Heq.
  split; destruct Hty as [-> | ->]; do 3 eexists.
  - split; [apply fx_price_well_formed; [apply Hfx | left; reflexivity] | ].
    split; [now apply fx_delta_call | split; [now apply fx_rho_call | ]].
    unfold fx_price, Spec.fx_call. cbn. rewrite !Ropp_mult_exp. field. lra.
  - split; [apply fx_price_well_formed; [apply Hfx | right; reflexivity] | ].
    split; [now apply fx_delta_put | split; [now apply fx_rho_put | ]].
    unfold fx_price, Spec.fx_put. cbn.
    rewrite !norm_cdf_reflect, !Ropp_mult_exp. field. lra.
  - split; [apply equity_price_well_formed; [apply Heq | left; reflexivity] | ].
    split; [now apply equity_delta_call | split; [now apply equity_rho_call | ]].
    unfold equity_price, Spec.equity_call. cbn. rewrite !Ropp_mult_exp. field. lra.
  - split; [apply equity_price_well_formed; [apply Heq | right; reflexivity] | ].
    split; [now apply equity_delta_put | split; [now apply equity_rho_put | ]].
    unfold equity_price, Spec.equity_put. cbn.
    rewrite !norm_cdf_reflect, !Ropp_mult_exp. field. lra.
Qed.

Lemma price_delta_rho_witness :
  exists p d h : R,
    FX.black_scholes (FX.mkOption 143 0.5 "put" 0.15 145 0.01) = Returns (NpFloat (Fin p))
    /\ FX.delta (FX.mkOption 143 0.5 "put" 0.15 145 0.01) = Returns (NpFloat (Fin d))
    /\ FX.rho (FX.mkOption 143 0.5 "put" 0.15 145 0.01) = Returns (NpFloat (Fin h))
    /\ p = 145 * d - 100 * h / 0.5.
Proof.
  apply (price_delta_rho 145 143 0.01 0 0.15 0.5 "put");
    [lra | lra | lra | lra | right; reflexivity].
Defined.

(** X17.  The results of one leg satisfy the Black-Scholes equation.  On a
    leg with positive fields and the type 'call' or 'put', the FX model gives
    365 theta + sigma^2 S^2 gamma / 2 + r S delta - r price = 0; the equity
    model gives the same with (r - q) S delta and with its gamma multiplied
    by e^(-qT), the dividend discount that [Equity.gamma] leaves out. *)
Theorem black_scholes_equation (S K r q sigma T : R) (ty : string) :
  0 < K -> 0 < S -> 0 < sigma -> 0 < T -> is_call_or_put ty ->
  (exists p d g t : R,
      FX.black_scholes (FX.mkOption K T ty sigma S r) = Returns (NpFloat (Fin p))
      /\ FX.delta (FX.mkOption K T ty sigma S r) = Returns (NpFloat (Fin d))
      /\ FX.gamma (FX.mkOption K T ty sigma S r) = Returns (NpFloat (Fin g))
      /\ FX.theta (FX.mkOption K T ty sigma S r) = Returns (NpFloat (Fin t))
      /\ 365 * t + sigma ^ 2 * S ^ 2 * g / 2 + r * S * d - r * p = 0)
  /\
  (exists p d g t : R,
      Equity.black_scholes_merton (Equity.mkEquityOption K T ty sigma S r q)
      = Returns (NpFloat (Fin p))
      /\ Equity.delta (Equity.mkEquityOption K T ty sigma S r q)
         = Returns (NpFloat (Fin d))
      /\ Equity.gamma (Equity.mkEquityOption K T ty sigma S r q)
         = Returns (NpFloat (Fin g))
      /\ Equity.theta (Equity.mkEquityOption K T ty sigma S r q)
         = Returns (NpFloat (Fin t))
      /\ 365 * t + sigma ^ 2 * S ^ 2 * (g * exp (- (q * T))) / 2
         + (r - q) * S * d - r * p = 0).
Proof.
  intros HK HS Hs HT Hty.
  pose proof (fx_leg_well_formed S K r sigma T HK HS Hs HT) as Hfx.
  pose proof (equity_leg_well_formed S K r q sigma T HK HS Hs HT) as Heq.
  pose proof (sqrt_lt_R0 T HT) as Hq.
  split; destruct Hty as [-> | ->]; do 4 eexists.
  - split; [apply fx_price_well_formed; [apply Hfx | left; reflexivity] | ].
    split; [now apply fx_delta_call | ].
    split; [apply fx_gamma_well_formed, Hfx | ].
    split; [now apply fx_theta_call | ].
    unfold fx_price, Spec.fx_call. cbn. rewrite !Ropp_mult_exp. field. lra.
  - split; [apply fx_price_well_formed; [apply Hfx | right; reflexivity] | ].
    split; [now apply fx_delta_put | ].
    split; [apply fx_gamma_well_formed, Hfx | ].
    split; [now apply fx_theta_put | ].
    unfold fx_price, Spec.fx_put. cbn.
    rewrite !norm_cdf_reflect, !Ropp_mult_exp. field. lra.
  - split; [apply equity_price_well_formed; [apply Heq | left; reflexivity] | ].
    split; [now apply equity_delta_call | ].
    split; [apply equity_gamma_well_formed, Heq | ].
    split; [now apply equity_theta_call | ].
    unfold equity_price, Spec.equity_call. cbn. rewrite !Ropp_mult_exp. field. lra.
  - split; [apply equity_price_well_formed; [apply Heq | right; reflexivity] | ].
    split; [now apply equity_delta_put | ].
    split; [apply equity_gamma_well_formed, Heq | ].
    split; [now apply equity_theta_put | ].
    unfold equity_price, Spec.equity_put. cbn.
    rewrite !norm_cdf_reflect, !Ropp_mult_exp. field. lra.
Qed.

Lemma black_scholes_equation_witness :
  exists p d g t : R,
    Equity.black_scholes_merton (Equity.mkEquityOption 105 1 "call" 0.16 100 0.02 0.03)
    = Returns (NpFloat (Fin p))
    /\ Equity.delta (Equity.mkEquityOption 105 1 "call" 0.16 100 0.02 0.03)
       = Returns (NpFloat (Fin d))
    /\ Equity.gamma (Equity.mkEquityOption 105 1 "call" 0.16 100 0.02 0.03)
       = Returns (NpFloat (Fin g))
    /\ Equity.theta (Equity.mkEquityOption 105 1 "call" 0.16 100 0.02 0.03)
       = Returns (NpFloat (Fin t))
    /\ 365 * t + 0.16 ^ 2 * 100 ^ 2 * (g * exp (- (0.03 * 1))) / 2
       + (0.02 - 0.03) * 100 * d - 0.02 * p = 0.
Proof.
  apply (black_scholes_equation 100 105 0.02 0.03 0.16 1 "call");
    [lra | lra | lra | lra | left; reflexivity].
Defined.
